(** * Side-pass scenario decision logic

    A shallow embedding of
    [modules/planning/scenarios/side_pass/side_pass_scenario.cc]
    (namespace [apollo::planning::scenario::side_pass]) together with the
    properties its design document states about it.

    Conventions.
    - A C++ [double] is an IEEE 754 binary64 number: Rocq's primitive [float].
      [a > b] on doubles is [b <? a]; every comparison with a NaN is false.
    - [std::string] is [string]; the empty string is the "no obstacle" id.
    - Member functions that write to the scenario object or to the
      process-wide planning context are computations in the monad [M] over
      [World]; [const] member functions are pure.
    - [std::list::front()] on an empty list is undefined behaviour: the
      computation has no result ([None]).
    - Only [AERROR] output is recorded; [ADEBUG] lines have no effect on
      results or state and are left out. *)

From Stdlib Require Import Floats ZArith PArith List String Bool Lia.
From Stdlib Require Import Permutation.
Import ListNotations.

Definition double : Type := float.

(** The IEEE 754 comparison of two doubles; [None] when one of them is NaN. *)
Definition double_compare (x y : double) : option comparison :=
  SFcompare (Prim2SF x) (Prim2SF y).

(** ** Data of the planning frame *)

(** Modelled from the spec: the station-lateral boundary of the ego vehicle or
    of an obstacle ([SLBoundary], a message type declared outside this file);
    the code reads [start_s] and [end_s]. *)
Record SLBoundary : Type := mkSLBoundary
  { start_s : double;
    end_s   : double;
    start_l : double;
    end_l   : double }.

(** Modelled from the spec: a tracked obstacle with its identifier, its
    static/moving flag and its perceived boundary ([Obstacle] is declared
    outside this file). *)
Record Obstacle : Type := mkObstacle
  { Id : string;
    IsStatic : bool;
    PerceptionSLBoundary : SLBoundary }.

Module hdmap.
(** Modelled from the spec: a map-overlap region with its start position
    ([hdmap::PathOverlap], declared outside this file). *)
Record PathOverlap : Type := mkPathOverlap
  { object_id : string;
    start_s   : double;
    end_s     : double }.
End hdmap.

(** Modelled from the spec: the tags of first-encountered overlaps
    ([ReferenceLineInfo::OverlapType]).  The five named tags are the ones the
    code mentions; [OTHER_OVERLAP] stands for every further tag. *)
Inductive OverlapType : Type :=
  | CLEAR_AREA
  | CROSSWALK
  | PNC_JUNCTION
  | SIGNAL
  | STOP_SIGN
  | OTHER_OVERLAP.

Definition OverlapType_eqb (a b : OverlapType) : bool :=
  match a, b with
  | CLEAR_AREA, CLEAR_AREA
  | CROSSWALK, CROSSWALK
  | PNC_JUNCTION, PNC_JUNCTION
  | SIGNAL, SIGNAL
  | STOP_SIGN, STOP_SIGN
  | OTHER_OVERLAP, OTHER_OVERLAP => true
  | _, _ => false
  end.

(** Modelled from the spec: an [IndexedList<std::string, Obstacle>]; [Items]
    lists the entries in insertion order and [Find] looks an id up. *)
Definition IndexedList : Type := list Obstacle.

Definition Items (l : IndexedList) : list Obstacle := l.

Definition IndexedList_Find (l : IndexedList) (id : string) : option Obstacle :=
  find (fun o => String.eqb (Id o) id) l.

Record PathDecision : Type := mkPathDecision
  { obstacles : IndexedList }.

(** Modelled from the spec: one reference-line context of the snapshot
    ([ReferenceLineInfo], declared outside this file). *)
Record ReferenceLineInfo : Type := mkReferenceLineInfo
  { AdcSlBoundary : SLBoundary;
    SDistanceToDestination : double;
    FirstEncounteredOverlaps : list (OverlapType * hdmap.PathOverlap);
    path_decision : PathDecision }.

(** Modelled from the spec: the per-cycle planning snapshot ([Frame], declared
    outside this file): its reference-line contexts and the frame-level
    obstacle list that [Frame::Find] searches. *)
Record Frame : Type := mkFrame
  { reference_line_info : list ReferenceLineInfo;
    frame_obstacles : IndexedList }.

Definition Find (frame : Frame) (id : string) : option Obstacle :=
  IndexedList_Find (frame_obstacles frame) id.

(** ** Scenario configuration and status *)

Module ScenarioConfig.
(** Modelled from the spec: [LANE_FOLLOW] is the default driving behaviour,
    [SIDE_PASS] this maneuver, [OTHER_SCENARIO] any other special
    scenario. *)
Inductive ScenarioType : Type :=
  | LANE_FOLLOW
  | SIDE_PASS
  | OTHER_SCENARIO.

(** Modelled from the spec: the phase identifiers; only
    [SIDE_PASS_DEFAULT_STAGE] is named by the code. *)
Inductive StageType : Type :=
  | NO_STAGE
  | SIDE_PASS_DEFAULT_STAGE
  | SIDE_PASS_APPROACH_OBSTACLE
  | SIDE_PASS_GENERATE_PATH
  | SIDE_PASS_STOP_ON_WAITPOINT
  | SIDE_PASS_DETECT_SAFETY
  | SIDE_PASS_PASS_OBSTACLE
  | SIDE_PASS_BACKUP.

Definition StageType_eqb (a b : StageType) : bool :=
  match a, b with
  | NO_STAGE, NO_STAGE
  | SIDE_PASS_DEFAULT_STAGE, SIDE_PASS_DEFAULT_STAGE
  | SIDE_PASS_APPROACH_OBSTACLE, SIDE_PASS_APPROACH_OBSTACLE
  | SIDE_PASS_GENERATE_PATH, SIDE_PASS_GENERATE_PATH
  | SIDE_PASS_STOP_ON_WAITPOINT, SIDE_PASS_STOP_ON_WAITPOINT
  | SIDE_PASS_DETECT_SAFETY, SIDE_PASS_DETECT_SAFETY
  | SIDE_PASS_PASS_OBSTACLE, SIDE_PASS_PASS_OBSTACLE
  | SIDE_PASS_BACKUP, SIDE_PASS_BACKUP => true
  | _, _ => false
  end.

Record StageConfig : Type := mkStageConfig
  { stage_type : StageType;
    enabled : bool }.
End ScenarioConfig.

(** Modelled from the spec: the immutable per-maneuver tunables
    ([ScenarioSidePassConfig]). *)
Record SidePassConfig : Type := mkSidePassConfig
  { block_obstacle_min_speed : double;
    min_front_obstacle_distance : double;
    enable_obstacle_blocked_check : bool }.

Inductive ScenarioStatus : Type :=
  | STATUS_UNKNOWN
  | STATUS_PROCESSING
  | STATUS_DONE.

Definition ScenarioStatus_eqb (a b : ScenarioStatus) : bool :=
  match a, b with
  | STATUS_UNKNOWN, STATUS_UNKNOWN
  | STATUS_PROCESSING, STATUS_PROCESSING
  | STATUS_DONE, STATUS_DONE => true
  | _, _ => false
  end.

(** What [IsTransferable] reads of the currently active scenario. *)
Record Scenario : Type := mkScenario
  { scenario_type : ScenarioConfig.ScenarioType;
    GetStatus : ScenarioStatus }.

(** ** The scenario object, the planning context and the stage factory *)

Record SidePassContext : Type := mkSidePassContext
  { scenario_config_ : SidePassConfig;
    front_blocking_obstacle_id_ : string }.

(** A stage holds its configuration and, once [SetContext] has run, the
    borrowed pointer to the scenario's context. *)
Inductive ContextPtr : Type :=
  | side_pass_context_ptr.

Record Stage : Type := mkStage
  { config_ : ScenarioConfig.StageConfig;
    context_ : option ContextPtr }.

Definition SetContext (p : ContextPtr) (s : Stage) : Stage :=
  {| config_ := config_ s; context_ := Some p |}.

Definition StageSidePass (config : ScenarioConfig.StageConfig) : Stage :=
  {| config_ := config; context_ := None |}.

(** Modelled from the spec: [common::util::Factory], a map from phase
    identifiers to constructors.  [Register] keeps an existing entry,
    [CreateObjectOrNull] is a lookup that yields null for an unknown key. *)
Definition Factory : Type :=
  list (ScenarioConfig.StageType * (ScenarioConfig.StageConfig -> Stage)).

Definition Factory_Empty (f : Factory) : bool :=
  match f with [] => true | _ :: _ => false end.

Fixpoint Factory_lookup (f : Factory) (id : ScenarioConfig.StageType)
  : option (ScenarioConfig.StageConfig -> Stage) :=
  match f with
  | [] => None
  | (k, creator) :: rest =>
      if ScenarioConfig.StageType_eqb k id then Some creator
      else Factory_lookup rest id
  end.

Definition Factory_Register (id : ScenarioConfig.StageType)
    (creator : ScenarioConfig.StageConfig -> Stage) (f : Factory) : Factory :=
  match Factory_lookup f id with
  | Some _ => f
  | None => f ++ [(id, creator)]
  end.

Definition CreateObjectOrNull (f : Factory) (id : ScenarioConfig.StageType)
    (arg : ScenarioConfig.StageConfig) : option Stage :=
  match Factory_lookup f id with
  | Some creator => Some (creator arg)
  | None => None
  end.

(** Everything the member functions read or write: the fields of the
    [SidePassScenario] object ([side_pass_context_], [msg_]), the slot of
    [PlanningContext::GetScenarioInfo()], the static stage factory and the
    error log. *)
Record World : Type := mkWorld
  { side_pass_context_ : SidePassContext;
    msg_ : string;
    side_pass_front_blocking_obstacle_id : string;
    s_stage_factory_ : Factory;
    error_log : list string }.

Definition set_front_blocking_obstacle_id_ (id : string) (w : World) : World :=
  {| side_pass_context_ :=
       {| scenario_config_ := scenario_config_ (side_pass_context_ w);
          front_blocking_obstacle_id_ := id |};
     msg_ := msg_ w;
     side_pass_front_blocking_obstacle_id :=
       side_pass_front_blocking_obstacle_id w;
     s_stage_factory_ := s_stage_factory_ w;
     error_log := error_log w |}.

Definition set_side_pass_front_blocking_obstacle_id (id : string) (w : World)
  : World :=
  {| side_pass_context_ := side_pass_context_ w;
     msg_ := msg_ w;
     side_pass_front_blocking_obstacle_id := id;
     s_stage_factory_ := s_stage_factory_ w;
     error_log := error_log w |}.

Definition set_msg_ (m : string) (w : World) : World :=
  {| side_pass_context_ := side_pass_context_ w;
     msg_ := m;
     side_pass_front_blocking_obstacle_id :=
       side_pass_front_blocking_obstacle_id w;
     s_stage_factory_ := s_stage_factory_ w;
     error_log := error_log w |}.

Definition set_s_stage_factory_ (f : Factory) (w : World) : World :=
  {| side_pass_context_ := side_pass_context_ w;
     msg_ := msg_ w;
     side_pass_front_blocking_obstacle_id :=
       side_pass_front_blocking_obstacle_id w;
     s_stage_factory_ := f;
     error_log := error_log w |}.

Definition AERROR (line : string) (w : World) : World :=
  {| side_pass_context_ := side_pass_context_ w;
     msg_ := msg_ w;
     side_pass_front_blocking_obstacle_id :=
       side_pass_front_blocking_obstacle_id w;
     s_stage_factory_ := s_stage_factory_ w;
     error_log := error_log w ++ [line] |}.

(** ** A state monad with undefined behaviour *)

Definition M (A : Type) : Type := World -> option (A * World).

Definition ret {A : Type} (a : A) : M A := fun w => Some (a, w).

Definition bind {A B : Type} (m : M A) (k : A -> M B) : M B :=
  fun w => match m w with
           | Some (a, w') => k a w'
           | None => None
           end.

Definition gets {A : Type} (f : World -> A) : M A := fun w => Some (f w, w).

Definition modify (f : World -> World) : M unit := fun w => Some (tt, f w).

(** A [const] member function: reads nothing of the world, may be undefined. *)
Definition pure_call {A : Type} (r : option A) : M A :=
  fun w => match r with
           | Some a => Some (a, w)
           | None => None
           end.

Declare Scope side_pass_scope.
Delimit Scope side_pass_scope with sp.

Notation "x <- c ;; k" := (bind c (fun x => k))
  (at level 100, c at next level, right associativity) : side_pass_scope.
Notation "c ;;; k" := (bind c (fun _ => k))
  (at level 100, right associativity) : side_pass_scope.

(** [a && b] with a stateful right operand: [b] runs only when [a] is true. *)
Definition and_then (a : M bool) (b : M bool) : M bool :=
  bind a (fun x => if x then b else ret false).

(** [std::list::front()]. *)
Definition front {A : Type} (l : list A) : option A :=
  match l with
  | [] => None
  | x :: _ => Some x
  end.

(** ** Collaborators declared outside this file *)

(** [IsBlockingObstacleToSidePass] and [GetDistanceBetweenADCAndObstacle]
    come from the obstacle blocking analyzer, the flag from the planning
    flags, [DebugString] from the message library.  The decision logic is
    parametric in them. *)
Class Collaborators : Type := mkCollaborators
  { IsBlockingObstacleToSidePass :
      Frame -> Obstacle -> double -> double -> bool -> bool;
    GetDistanceBetweenADCAndObstacle : Frame -> Obstacle -> double;
    FLAGS_side_pass_min_signal_intersection_distance : double;
    DebugString : ScenarioConfig.StageConfig -> string }.

(** Modelled from the spec: the scenario configuration message handed to the
    constructor; only its side-pass part is read. *)
Record ScenarioConfigMsg : Type := mkScenarioConfigMsg
  { side_pass_config : SidePassConfig }.

(** ** The member functions of [SidePassScenario] *)

Section Operations.

Context {ext : Collaborators}.

Local Open Scope float_scope.
Local Open Scope side_pass_scope.

(** The clearance distance from intersection/destination. *)
Definition kClearDistance : double := 15.0.

Definition kSidePassMaxDistance : double := 10.0.

Definition RegisterStages : M unit :=
  f <- gets s_stage_factory_ ;;
  if negb (Factory_Empty f) then ret tt
  else
    modify (set_s_stage_factory_
              (Factory_Register ScenarioConfig.SIDE_PASS_DEFAULT_STAGE
                                StageSidePass f)).

(** The constructor: a fresh object whose context holds a copy of the
    configuration and the id found in the planning context. *)
Definition SidePassScenario (config : ScenarioConfigMsg) : M unit :=
  id <- gets side_pass_front_blocking_obstacle_id ;;
  modify (fun w =>
            {| side_pass_context_ :=
                 {| scenario_config_ := side_pass_config config;
                    front_blocking_obstacle_id_ := id |};
               msg_ := EmptyString;
               side_pass_front_blocking_obstacle_id :=
                 side_pass_front_blocking_obstacle_id w;
               s_stage_factory_ := s_stage_factory_ w;
               error_log := error_log w |}).

Definition CreateStage (stage_config : ScenarioConfig.StageConfig)
  : M (option Stage) :=
  RegisterStages ;;;
  f <- gets s_stage_factory_ ;;
  match CreateObjectOrNull f (ScenarioConfig.stage_type stage_config)
                           stage_config with
  | None =>
      modify (AERROR ("Failed to create stage for config: "
                        ++ DebugString stage_config)%string) ;;;
      ret None
  | Some ptr => ret (Some (SetContext side_pass_context_ptr ptr))
  end.

Definition IsFarFromDestination (frame : Frame) : option bool :=
  if (1 <? List.length (reference_line_info frame))%nat then Some false
  else
    match front (reference_line_info frame) with
    | None => None
    | Some reference_line_info =>
        if SDistanceToDestination reference_line_info <? kClearDistance
        then Some false
        else Some true
    end.

(** The loop of [IsFarFromIntersection] over the overlaps still to be
    visited; [false] is the early [return false], [true] the fall-through
    after the last iteration. *)
Fixpoint IsFarFromIntersection_loop (adc_sl_boundary : SLBoundary)
    (overlaps : list (OverlapType * hdmap.PathOverlap)) : bool :=
  match overlaps with
  | [] => true
  | overlap :: rest =>
      if negb (OverlapType_eqb (fst overlap) CLEAR_AREA)
         && negb (OverlapType_eqb (fst overlap) CROSSWALK)
         && negb (OverlapType_eqb (fst overlap) SIGNAL)
         && negb (OverlapType_eqb (fst overlap) STOP_SIGN)
      then IsFarFromIntersection_loop adc_sl_boundary rest
      else
        let distance :=
          hdmap.start_s (snd overlap) - end_s adc_sl_boundary in
        if OverlapType_eqb (fst overlap) SIGNAL then
          if distance <? FLAGS_side_pass_min_signal_intersection_distance
          then false
          else IsFarFromIntersection_loop adc_sl_boundary rest
        else
          if distance <? kClearDistance
          then false
          else IsFarFromIntersection_loop adc_sl_boundary rest
  end.

Definition IsFarFromIntersection (frame : Frame) : option bool :=
  if (1 <? List.length (reference_line_info frame))%nat then Some false
  else
    match front (reference_line_info frame) with
    | None => None
    | Some reference_line_info =>
        Some (IsFarFromIntersection_loop
                (AdcSlBoundary reference_line_info)
                (FirstEncounteredOverlaps reference_line_info))
    end.

(** The locals of [HasBlockingObstacle] that live across loop
    iterations. *)
Record ScanLocals : Type := mkScanLocals
  { distance_to_closest_blocking_obstacle : double;
    exists_a_blocking_obstacle : bool }.

(** The loop of [HasBlockingObstacle] over the obstacles still to be
    visited. *)
Fixpoint HasBlockingObstacle_loop (frame : Frame) (items : list Obstacle)
    (locals : ScanLocals) (w : World) : ScanLocals * World :=
  match items with
  | [] => (locals, w)
  | obstacle :: rest =>
      let side_pass_config := scenario_config_ (side_pass_context_ w) in
      if IsBlockingObstacleToSidePass frame obstacle
           (block_obstacle_min_speed side_pass_config)
           (min_front_obstacle_distance side_pass_config)
           (enable_obstacle_blocked_check side_pass_config)
      then
        let distance_between_adc_and_obstacle :=
          GetDistanceBetweenADCAndObstacle frame obstacle in
        if (distance_to_closest_blocking_obstacle locals <? 0.0)
           || (distance_between_adc_and_obstacle
               <? distance_to_closest_blocking_obstacle locals)
        then
          let w1 := set_front_blocking_obstacle_id_ (Id obstacle) w in
          let w2 :=
            set_side_pass_front_blocking_obstacle_id
              (front_blocking_obstacle_id_ (side_pass_context_ w1)) w1 in
          HasBlockingObstacle_loop frame rest
            {| distance_to_closest_blocking_obstacle :=
                 distance_between_adc_and_obstacle;
               exists_a_blocking_obstacle := true |} w2
        else
          HasBlockingObstacle_loop frame rest
            {| distance_to_closest_blocking_obstacle :=
                 distance_to_closest_blocking_obstacle locals;
               exists_a_blocking_obstacle := true |} w
      else HasBlockingObstacle_loop frame rest locals w
  end.

Definition HasBlockingObstacle (frame : Frame) : M bool :=
  if (1 <? List.length (reference_line_info frame))%nat then ret false
  else
    reference_line_info <- pure_call (front (reference_line_info frame)) ;;
    let path_decision := path_decision reference_line_info in
    fun w =>
      let '(locals, w') :=
        HasBlockingObstacle_loop frame (Items (obstacles path_decision))
          {| distance_to_closest_blocking_obstacle := -100.0;
             exists_a_blocking_obstacle := false |} w in
      if exists_a_blocking_obstacle locals then ret true w'
      else
        (modify (set_front_blocking_obstacle_id_ EmptyString) ;;;
         id <- gets (fun w => front_blocking_obstacle_id_
                                (side_pass_context_ w)) ;;
         modify (set_side_pass_front_blocking_obstacle_id id) ;;;
         ret false) w'.

Definition IsSidePassScenario (frame : Frame) : M bool :=
  and_then (pure_call (IsFarFromDestination frame))
    (and_then (pure_call (IsFarFromIntersection frame))
              (HasBlockingObstacle frame)).

Definition IsTransferable (current_scenario : Scenario) (frame : Frame)
  : M bool :=
  if (1 <? List.length (reference_line_info frame))%nat then ret false
  else
    front_blocking_obstacle_id <-
      gets side_pass_front_blocking_obstacle_id ;;
    match scenario_type current_scenario with
    | ScenarioConfig.SIDE_PASS =>
        match Find frame front_blocking_obstacle_id with
        | None => ret false
        | Some ptr_front_blocking_obstacle =>
            if negb (IsStatic ptr_front_blocking_obstacle) then ret false
            else
              reference_line_info <-
                pure_call (front (reference_line_info frame)) ;;
              let ego_front_edge_s :=
                end_s (AdcSlBoundary reference_line_info) in
              let obstacle_ego_distance :=
                start_s (PerceptionSLBoundary ptr_front_blocking_obstacle)
                - ego_front_edge_s in
              if kSidePassMaxDistance <? obstacle_ego_distance
              then ret false
              else
                modify (set_msg_ ("side pass obstacle: "
                                    ++ front_blocking_obstacle_id)%string) ;;;
                ret (negb (ScenarioStatus_eqb (GetStatus current_scenario)
                                              STATUS_DONE))
        end
    | ScenarioConfig.LANE_FOLLOW =>
        is_side_pass <- IsSidePassScenario frame ;;
        if is_side_pass
        then
          modify (set_msg_ ("side pass obstacle: "
                              ++ front_blocking_obstacle_id)%string) ;;;
          ret is_side_pass
        else ret is_side_pass
    | _ => ret false
    end.

End Operations.

(** ** The vocabulary of the design document *)

Section Vocabulary.

Context {ext : Collaborators}.

Local Open Scope float_scope.

(** The tracked blocking-obstacle id as the maneuver context holds it. *)
Definition context_id (w : World) : string :=
  front_blocking_obstacle_id_ (side_pass_context_ w).

(** The tracked blocking-obstacle id as the cross-cycle state holds it. *)
Definition cross_cycle_id (w : World) : string :=
  side_pass_front_blocking_obstacle_id w.

(** The world after the tracked id has been cleared in both places. *)
Definition cleared (w : World) : World :=
  set_side_pass_front_blocking_obstacle_id EmptyString
    (set_front_blocking_obstacle_id_ EmptyString w).

(** The classifier's verdict under the thresholds of the maneuver
    configuration held in [w]. *)
Definition classified_blocking (frame : Frame) (w : World) (o : Obstacle)
  : bool :=
  let side_pass_config := scenario_config_ (side_pass_context_ w) in
  IsBlockingObstacleToSidePass frame o
    (block_obstacle_min_speed side_pass_config)
    (min_front_obstacle_distance side_pass_config)
    (enable_obstacle_blocked_check side_pass_config).



(** Every obstacle the snapshot knows: the frame-level list and the
    registry of each reference line. *)
Definition snapshot_obstacles (frame : Frame) : list Obstacle :=
  Items (frame_obstacles frame)
  ++ flat_map (fun r => Items (obstacles (path_decision r)))
              (reference_line_info frame).

(** The invariant the data model states for the tracked id. *)
Definition EmptyOrInSnapshot (frame : Frame) (id : string) : Prop :=
  id = EmptyString
  \/ exists o : Obstacle, In o (snapshot_obstacles frame) /\ Id o = id.

(** The overlap types [IsFarFromIntersection] looks at. *)
Definition relevant_overlap (t : OverlapType) : bool :=
  match t with
  | CLEAR_AREA | CROSSWALK | SIGNAL | STOP_SIGN => true
  | PNC_JUNCTION | OTHER_OVERLAP => false
  end.

(** The threshold of a relevant overlap type. *)
Definition overlap_threshold (t : OverlapType) : double :=
  match t with
  | SIGNAL => FLAGS_side_pass_min_signal_intersection_distance
  | _ => 15.0
  end.

Definition overlap_distance (ego_boundary : SLBoundary)
    (overlap : OverlapType * hdmap.PathOverlap) : double :=
  hdmap.start_s (snd overlap) - end_s ego_boundary.

(** A relevant overlap whose distance is below its threshold. *)
Definition too_close (ego_boundary : SLBoundary)
    (overlap : OverlapType * hdmap.PathOverlap) : bool :=
  relevant_overlap (fst overlap)
  && (overlap_distance ego_boundary overlap
      <? overlap_threshold (fst overlap)).

(** The gap between the ego vehicle's front edge and an obstacle. *)
Definition gap (reference_line_info : ReferenceLineInfo) (o : Obstacle)
  : double :=
  start_s (PerceptionSLBoundary o) - end_s (AdcSlBoundary reference_line_info).

End Vocabulary.

(** ** Concrete snapshots *)

Module Fixture.

Local Open Scope float_scope.
Local Open Scope string_scope.

Definition boundary (s e : double) : SLBoundary :=
  {| start_s := s; end_s := e; start_l := -1.0; end_l := 1.0 |}.

(** The ego vehicle occupies stations 0.0 to 5.0. *)
Definition ego : SLBoundary := boundary 0.0 5.0.

Definition parked (id : string) (s : double) : Obstacle :=
  {| Id := id; IsStatic := true;
     PerceptionSLBoundary := boundary s (s + 4.0) |}.

Definition moving (id : string) (s : double) : Obstacle :=
  {| Id := id; IsStatic := false;
     PerceptionSLBoundary := boundary s (s + 4.0) |}.

Definition line (to_destination : double)
    (overlaps : list (OverlapType * hdmap.PathOverlap))
    (obs : list Obstacle) : ReferenceLineInfo :=
  {| AdcSlBoundary := ego;
     SDistanceToDestination := to_destination;
     FirstEncounteredOverlaps := overlaps;
     path_decision := {| obstacles := obs |} |}.

Definition one_line (to_destination : double)
    (overlaps : list (OverlapType * hdmap.PathOverlap))
    (obs : list Obstacle) : Frame :=
  {| reference_line_info := [line to_destination overlaps obs];
     frame_obstacles := obs |}.

Definition two_lines (obs : list Obstacle) : Frame :=
  {| reference_line_info := [line 20.0 [] obs; line 20.0 [] obs];
     frame_obstacles := obs |}.

Definition overlap_at (t : OverlapType) (s : double)
  : OverlapType * hdmap.PathOverlap :=
  (t, {| hdmap.object_id := "overlap"; hdmap.start_s := s;
         hdmap.end_s := s + 3.0 |}).

(** Collaborators for the concrete runs: every static obstacle is
    classified as blocking, the distance is the gap to the ego vehicle's
    front edge on the first reference line. *)
Definition collaborators : Collaborators :=
  {| IsBlockingObstacleToSidePass := fun _ o _ _ _ => IsStatic o;
     GetDistanceBetweenADCAndObstacle :=
       fun frame o =>
         match front (reference_line_info frame) with
         | Some r => start_s (PerceptionSLBoundary o) - end_s (AdcSlBoundary r)
         | None => 0.0
         end;
     FLAGS_side_pass_min_signal_intersection_distance := 50.0;
     DebugString := fun _ => "stage_type: UNKNOWN" |}.

Definition default_config : SidePassConfig :=
  {| block_obstacle_min_speed := 0.5;
     min_front_obstacle_distance := 1.0;
     enable_obstacle_blocked_check := true |}.

(** A world whose scenario object was built while the cross-cycle state
    held [id]. *)
Definition world (id : string) : World :=
  {| side_pass_context_ :=
       {| scenario_config_ := default_config;
          front_blocking_obstacle_id_ := id |};
     msg_ := "";
     side_pass_front_blocking_obstacle_id := id;
     s_stage_factory_ := [];
     error_log := [] |}.

Definition in_side_pass (status : ScenarioStatus) : Scenario :=
  {| scenario_type := ScenarioConfig.SIDE_PASS; GetStatus := status |}.

Definition in_lane_follow : Scenario :=
  {| scenario_type := ScenarioConfig.LANE_FOLLOW;
     GetStatus := STATUS_PROCESSING |}.

Definition unknown_stage : ScenarioConfig.StageConfig :=
  {| ScenarioConfig.stage_type := ScenarioConfig.SIDE_PASS_BACKUP;
     ScenarioConfig.enabled := true |}.

Definition config_msg : ScenarioConfigMsg :=
  {| side_pass_config := default_config |}.

(** Two parked obstacles ahead, at gaps 8.0 and 3.0, the farther one
    scanned first. *)
Definition far_then_near : Frame :=
  one_line 20.0 [] [parked "far" 13.0; parked "near" 8.0].

(** Two parked obstacles at the same gap. *)
Definition twins : Frame :=
  one_line 20.0 [] [parked "first" 8.0; parked "second" 8.0].

(** A single parked obstacle at gap exactly 10.0. *)
Definition at_abort_distance : Frame :=
  one_line 20.0 [] [parked "a" 15.0].

(** The double nearest to 15.0001, as the literal is read. *)
Definition just_beyond : double := 0x1.e000d1b71758ep+3.

Definition beyond_abort_distance : Frame :=
  one_line 20.0 [] [parked "a" just_beyond].

(** Two reference lines that both see the same obstacle. *)
Definition forked (o : Obstacle) : Frame := two_lines [o].

Definition only_moving : Frame :=
  one_line 20.0 [] [moving "a" 8.0].

(** The obstacle of the previous cycle is gone. *)
Definition empty_road : Frame := one_line 20.0 [] [].

Definition near_destination : Frame :=
  one_line 10.0 [] [parked "a" 10.0].

Definition entry : Frame :=
  one_line 20.0 [] [parked "a" 10.0].

Definition junction_then_crosswalk : Frame :=
  one_line 20.0
    [overlap_at PNC_JUNCTION 6.0; overlap_at SIGNAL 60.0;
     overlap_at CROSSWALK 19.0; overlap_at STOP_SIGN 30.0] [].

Definition far_overlaps : Frame :=
  one_line 20.0
    [overlap_at PNC_JUNCTION 6.0; overlap_at SIGNAL 60.0;
     overlap_at CROSSWALK 20.0] [].

End Fixture.

(** ** The remaining member functions *)

(** TODO(jiacheng): implement this. *)
Definition IsWithinSidePassingSpeedADC (frame : Frame) : bool := true.

(** TODO(jiacheng): implement this to replace HasBlockingObstacle. *)
Definition IsSidePassableObstacle (frame : Frame)
    (reference_line_info : ReferenceLineInfo)
    (blocking_obstacle_id : string) : bool := true.

(** ** Comparing worlds *)

(** The maneuver context and the cross-cycle state hold the same id. *)
Definition InSync (w : World) : Prop :=
  context_id w = cross_cycle_id w.

(** Two worlds that differ at most in the tracked id (in either place). *)
Definition SameButIds (w1 w2 : World) : Prop :=
  cleared w1 = cleared w2.

(** Two worlds that differ at most in the tracked id and in [msg_]. *)
Definition SameButIdsAndMsg (w1 w2 : World) : Prop :=
  set_msg_ EmptyString (cleared w1) = set_msg_ EmptyString (cleared w2).

(** Two worlds that differ at most in the static stage factory. *)
Definition SameButFactory (w1 w2 : World) : Prop :=
  set_s_stage_factory_ [] w1 = set_s_stage_factory_ [] w2.

(** The distance of an overlap is a number, not a NaN. *)
Definition distance_is_number (ego_boundary : SLBoundary)
    (overlap : OverlapType * hdmap.PathOverlap) : bool :=
  PrimFloat.leb (overlap_distance ego_boundary overlap)
                (overlap_distance ego_boundary overlap).

(** [o] is the last obstacle of the scan [items] that is classified as
    blocking. *)
Definition LastBlocking {ext : Collaborators} (frame : Frame) (w : World)
    (items : list Obstacle) (o : Obstacle) : Prop :=
  exists before after : list Obstacle,
    items = before ++ o :: after
    /\ classified_blocking frame w o = true
    /\ forall o', In o' after -> classified_blocking frame w o' = false.

(** ** Further concrete snapshots *)

Module Cases.

Import Fixture.

Local Open Scope string_scope.
Local Open Scope float_scope.

(** A snapshot without any reference line. *)
Definition no_lines : Frame :=
  {| reference_line_info := []; frame_obstacles := [] |}.

(** Two parked obstacles that both start behind the ego vehicle's front
    edge (gaps -1.0 and -4.0). *)
Definition both_negative : Frame :=
  one_line 20.0 [] [parked "beside" 4.0; parked "behind" 1.0].

(** A snapshot whose distance to destination, crosswalk start and obstacle
    start are all NaN. *)
Definition nan_everywhere : Frame :=
  one_line nan [overlap_at CROSSWALK nan] [parked "a" nan].

(** A crosswalk far enough away, followed by one whose start is NaN. *)
Definition nan_among_overlaps : Frame :=
  one_line 20.0 [overlap_at CROSSWALK 30.0; overlap_at CROSSWALK nan] [].

Definition junction_close : Frame :=
  one_line 20.0 [overlap_at PNC_JUNCTION 6.0] [].

Definition far_overlaps_reversed : Frame :=
  one_line 20.0
    [overlap_at CROSSWALK 20.0; overlap_at SIGNAL 60.0;
     overlap_at PNC_JUNCTION 6.0] [].

Definition at_clear_distance : Frame := one_line 15.0 [] [].

Definition far_destination : Frame := one_line 30.0 [] [].

Definition default_stage : ScenarioConfig.StageConfig :=
  {| ScenarioConfig.stage_type := ScenarioConfig.SIDE_PASS_DEFAULT_STAGE;
     ScenarioConfig.enabled := true |}.

Definition in_other_scenario : Scenario :=
  {| scenario_type := ScenarioConfig.OTHER_SCENARIO;
     GetStatus := STATUS_PROCESSING |}.

(** A world after the lazy registration has run. *)
Definition registered (w : World) : World :=
  set_s_stage_factory_
    [(ScenarioConfig.SIDE_PASS_DEFAULT_STAGE, StageSidePass)] w.

(** The world after a successful entry that recorded obstacle "a" while the
    cross-cycle state held no id. *)
Definition entered : World :=
  set_msg_ "side pass obstacle: " (world "a").

(** The world after a continuation check that got past the distance test
    while obstacle "a" was tracked. *)
Definition entered_again : World :=
  set_msg_ "side pass obstacle: a" (world "a").

End Cases.

(** * Properties *)

(** ** The order of binary64 numbers

    [<?] and [<=?] on doubles are specified by [SFcompare] on the decoded
    number.  Away from NaN they form a total preorder; the closest-obstacle
    scan relies on exactly that. *)

Module DoubleOrder.

Ltac compare_cases :=
  change (Pos.compare_cont Eq) with Pos.compare;
  repeat match goal with
         | |- context [(?a ?= ?b)%Z] => destruct (Z.compare_spec a b)
         | |- context [(?a ?= ?b)%positive] =>
             destruct (Pos.compare_spec a b)
         end.

Ltac by_shape x := destruct x as [[|]|[|]| |[|] ? ?]; simpl.

Lemma SFcompare_antisym (x y : spec_float) (c : comparison) :
  SFcompare x y = Some c -> SFcompare y x = Some (CompOpp c).
Proof.
  by_shape x; by_shape y; try discriminate;
    try (intros [= <-]; reflexivity);
    compare_cases; intros [= <-]; simpl; try reflexivity; subst; lia.
Qed.

Lemma SFcompare_number_r (x y : spec_float) (c : comparison) :
  SFcompare x y = Some c -> SFcompare y y = Some Eq.
Proof.
  by_shape x; by_shape y; try discriminate; intros _; try reflexivity;
    rewrite Z.compare_refl, Pos.compare_cont_refl; reflexivity.
Qed.


Lemma SFcompare_trans (x y z : spec_float) (c1 c2 : comparison) :
  SFcompare x y = Some c1 -> SFcompare y z = Some c2 ->
  c1 <> Gt -> c2 <> Gt ->
  SFcompare x z = Some (match c1 with Eq => c2 | _ => Lt end).
Proof.
  by_shape x; by_shape y; try discriminate;
    by_shape z; try discriminate;
    try (intros [= <-] [= <-] ? ?; solve [reflexivity | congruence]);
    compare_cases; intros [= <-] [= <-] ? ?; simpl in *;
    solve [reflexivity | congruence | subst; lia].
Qed.

Local Open Scope float_scope.

Lemma ltb_cmp (x y : double) :
  (x <? y) = true <-> double_compare x y = Some Lt.
Proof.
  rewrite ltb_spec. unfold SFltb, double_compare.
  destruct (SFcompare _ _) as [[| |]|]; split; congruence.
Qed.

Lemma leb_cmp (x y : double) :
  (x <=? y) = true <-> exists c, double_compare x y = Some c /\ c <> Gt.
Proof.
  rewrite leb_spec. unfold SFleb, double_compare.
  destruct (SFcompare _ _) as [[| |]|]; split;
    try congruence; try (intros _; eexists; split; [reflexivity|congruence]);
    intros (c & E & N); congruence.
Qed.


Lemma leb_trans (x y z : double) :
  (x <=? y) = true -> (y <=? z) = true -> (x <=? z) = true.
Proof.
  rewrite !leb_cmp. intros (c1 & Hxy & H1) (c2 & Hyz & H2).
  unfold double_compare in *.
  rewrite (SFcompare_trans _ _ _ _ _ Hxy Hyz H1 H2).
  eexists; split; [reflexivity|]. destruct c1; congruence.
Qed.

Lemma ltb_leb (x y : double) : (x <? y) = true -> (x <=? y) = true.
Proof.
  rewrite ltb_cmp, leb_cmp. intros H. exists Lt. split; [exact H|congruence].
Qed.

(** A double that occurs on the right of a successful [<=?] is a number,
    and a number is [<=?] itself. *)
Lemma leb_refl_r (a x : double) : (a <=? x) = true -> (x <=? x) = true.
Proof.
  rewrite !leb_cmp. intros (c & H & _). unfold double_compare in *.
  exists Eq. split; [exact (SFcompare_number_r _ _ _ H)|congruence].
Qed.



End DoubleOrder.

(** ** The topology guard and the paths of [IsTransferable] *)

Section Guards.

Context {ext : Collaborators}.

Local Open Scope float_scope.

Lemma single_line_not_many (frame : Frame) (r : ReferenceLineInfo) :
  reference_line_info frame = [r] ->
  (1 <? List.length (reference_line_info frame))%nat = false
  /\ front (reference_line_info frame) = Some r.
Proof. intros ->. split; reflexivity. Qed.

Lemma many_lines_guard (frame : Frame) :
  (1 < List.length (reference_line_info frame))%nat ->
  (1 <? List.length (reference_line_info frame))%nat = true.
Proof. intros H. apply Nat.ltb_lt. exact H. Qed.

(** C4. On a snapshot with more than one reference line each of
    [IsTransferable], [IsFarFromDestination], [IsFarFromIntersection] and
    [HasBlockingObstacle] returns false, whatever the current scenario,
    the rest of the snapshot and the stored state are. *)
Theorem ambiguous_topology_all_false
    (current_scenario : Scenario) (frame : Frame) (w : World) :
  (1 < List.length (reference_line_info frame))%nat ->
  option_map fst (IsTransferable current_scenario frame w) = Some false
  /\ IsFarFromDestination frame = Some false
  /\ IsFarFromIntersection frame = Some false
  /\ option_map fst (HasBlockingObstacle frame w) = Some false.
Proof.
  intros H. apply many_lines_guard in H.
  unfold IsTransferable, IsFarFromDestination, IsFarFromIntersection,
    HasBlockingObstacle.
  rewrite H. repeat split.
Qed.

(** C10. On a snapshot with more than one reference line
    [HasBlockingObstacle] returns false and leaves the whole world as it
    found it; in particular the tracked id keeps its value in the maneuver
    context and in the cross-cycle state, and is not cleared. *)
Theorem HasBlockingObstacle_ambiguous_topology_keeps_id
    (frame : Frame) (w : World) :
  (1 < List.length (reference_line_info frame))%nat ->
  exists w' : World,
    HasBlockingObstacle frame w = Some (false, w')
    /\ w' = w
    /\ context_id w' = context_id w
    /\ cross_cycle_id w' = cross_cycle_id w.
Proof.
  intros H. apply many_lines_guard in H.
  exists w. unfold HasBlockingObstacle. rewrite H. repeat split.
Qed.

(** C5. While this maneuver is the current scenario, [IsTransferable]
    returns false when the tracked id is not found in the snapshot, and
    returns false when the obstacle found is not static, whatever its
    boundary (hence its distance) is.  Neither case changes the world, and
    neither depends on the number of reference lines. *)
Theorem continuation_stale_obstacle_false
    (current_scenario : Scenario) (frame : Frame) (w : World) :
  scenario_type current_scenario = ScenarioConfig.SIDE_PASS ->
  (Find frame (cross_cycle_id w) = None ->
   IsTransferable current_scenario frame w = Some (false, w))
  /\ (forall o : Obstacle,
        Find frame (cross_cycle_id w) = Some o ->
        IsStatic o = false ->
        IsTransferable current_scenario frame w = Some (false, w)).
Proof.
  intros Hty. unfold IsTransferable, cross_cycle_id.
  destruct (1 <? List.length (reference_line_info frame))%nat;
    [split; reflexivity|].
  unfold bind, gets. rewrite Hty. split.
  - intros ->. reflexivity.
  - intros o -> ->. reflexivity.
Qed.

(** Every path of [IsTransferable] either keeps the tracked id in both
    places or is the entry path that got as far as [HasBlockingObstacle],
    and then the ids are the ones that call left. *)
Lemma IsTransferable_ids
    (current_scenario : Scenario) (frame : Frame) (w w' : World)
    (b : bool) :
  IsTransferable current_scenario frame w = Some (b, w') ->
  (context_id w' = context_id w /\ cross_cycle_id w' = cross_cycle_id w)
  \/ (scenario_type current_scenario = ScenarioConfig.LANE_FOLLOW
      /\ IsFarFromDestination frame = Some true
      /\ IsFarFromIntersection frame = Some true
      /\ exists w0 : World,
           HasBlockingObstacle frame w = Some (b, w0)
           /\ context_id w' = context_id w0
           /\ cross_cycle_id w' = cross_cycle_id w0).
Proof.
  unfold IsTransferable.
  destruct (1 <? List.length (reference_line_info frame))%nat.
  { intros [= <- <-]. left. split; reflexivity. }
  unfold bind at 1. unfold gets at 1.
  destruct (scenario_type current_scenario) eqn:Hty.
  - (* LANE_FOLLOW *)
    unfold bind at 1. unfold IsSidePassScenario, and_then, bind, pure_call.
    destruct (IsFarFromDestination frame) as [[|]|]; try discriminate.
    + destruct (IsFarFromIntersection frame) as [[|]|]; try discriminate.
      * destruct (HasBlockingObstacle frame w) as [[[|] w0]|] eqn:Hhas;
          try discriminate.
        -- unfold modify, ret. intros [= <- <-]. right.
           repeat split. exists w0. repeat split.
        -- unfold ret. intros [= <- <-]. right.
           repeat split. exists w0. repeat split.
      * unfold ret. intros [= <- <-]. left. split; reflexivity.
    + unfold ret. intros [= <- <-]. left. split; reflexivity.
  - (* SIDE_PASS *)
    destruct (Find frame (side_pass_front_blocking_obstacle_id w)) as [o|].
    + destruct (negb (IsStatic o)).
      { intros [= <- <-]. left. split; reflexivity. }
      unfold bind, pure_call.
      destruct (front (reference_line_info frame)) as [r|]; try discriminate.
      destruct (kSidePassMaxDistance <? _).
      * intros [= <- <-]. left. split; reflexivity.
      * unfold modify, ret. intros [= <- <-]. left. split; reflexivity.
    + intros [= <- <-]. left. split; reflexivity.
  - intros [= <- <-]. left. split; reflexivity.
Qed.

(** C6. When the default driving behaviour is the current scenario and
    [IsFarFromDestination] returns false, [IsTransferable] returns false
    and leaves the world as it found it, for every classifier: the call
    never gets to [HasBlockingObstacle].  More generally a call of
    [IsTransferable] changes the tracked id only by way of
    [HasBlockingObstacle], and [CreateStage] never changes it; the two
    remaining predicates are [const] and cannot. *)
Theorem entry_blocked_by_destination
    (current_scenario : Scenario) (frame : Frame) (w : World) :
  scenario_type current_scenario = ScenarioConfig.LANE_FOLLOW ->
  IsFarFromDestination frame = Some false ->
  IsTransferable current_scenario frame w = Some (false, w)
  /\ (forall (cs : Scenario) (fr : Frame) (w0 w' : World) (b : bool),
        IsTransferable cs fr w0 = Some (b, w') ->
        (context_id w' <> context_id w0
         \/ cross_cycle_id w' <> cross_cycle_id w0) ->
        exists w1 : World,
          HasBlockingObstacle fr w0 = Some (b, w1)
          /\ context_id w' = context_id w1
          /\ cross_cycle_id w' = cross_cycle_id w1)
  /\ (forall (stage_config : ScenarioConfig.StageConfig) (w0 w' : World)
             (stage : option Stage),
        CreateStage stage_config w0 = Some (stage, w') ->
        context_id w' = context_id w0
        /\ cross_cycle_id w' = cross_cycle_id w0).
Proof.
  intros Hty Hfar. split; [|split].
  3: { intros stage_config w0 w' stage. unfold CreateStage, RegisterStages.
       unfold bind, gets, modify, ret.
       destruct (negb (Factory_Empty (s_stage_factory_ w0)));
         cbn [s_stage_factory_ set_s_stage_factory_];
         destruct (CreateObjectOrNull _ _ _);
         intros [= <- <-]; split; reflexivity. }
  - unfold IsTransferable.
    destruct (1 <? List.length (reference_line_info frame))%nat;
      [reflexivity|].
    unfold bind at 1. unfold gets at 1. rewrite Hty.
    unfold bind, IsSidePassScenario, and_then, bind, pure_call.
    rewrite Hfar. reflexivity.
  - intros cs fr w0 w' b Hrun Hchg.
    destruct (IsTransferable_ids _ _ _ _ _ Hrun) as [[E1 E2]|(_ & _ & _ & H)].
    + destruct Hchg; congruence.
    + exact H.
Qed.

End Guards.

(** ** The overlap scan of [IsFarFromIntersection] *)

Section Overlaps.

Context {ext : Collaborators}.

Local Open Scope float_scope.

(** The loop returns false exactly when some overlap is too close. *)
Lemma IsFarFromIntersection_loop_existsb
    (ego_boundary : SLBoundary)
    (overlaps : list (OverlapType * hdmap.PathOverlap)) :
  IsFarFromIntersection_loop ego_boundary overlaps
  = negb (existsb (too_close ego_boundary) overlaps).
Proof.
  induction overlaps as [|[t o] rest IH]; [reflexivity|].
  cbn [IsFarFromIntersection_loop existsb fst snd].
  unfold too_close at 1, overlap_distance, overlap_threshold.
  cbn [fst snd]. unfold kClearDistance.
  destruct t; cbn [OverlapType_eqb relevant_overlap negb andb orb];
    try exact IH;
    match goal with
    | |- context [?d <? ?t] => destruct (d <? t)
    end; cbn [negb andb orb]; try reflexivity; exact IH.
Qed.

(** The loop stops at the first overlap that is too close: what comes
    after it has no influence on the result. *)
Lemma IsFarFromIntersection_loop_stops
    (ego_boundary : SLBoundary)
    (seen unseen : list (OverlapType * hdmap.PathOverlap))
    (overlap : OverlapType * hdmap.PathOverlap) :
  too_close ego_boundary overlap = true ->
  IsFarFromIntersection_loop ego_boundary (seen ++ overlap :: unseen)
  = false.
Proof.
  intros H. rewrite IsFarFromIntersection_loop_existsb, existsb_app.
  cbn [existsb]. rewrite H, orb_true_r. reflexivity.
Qed.

(** C7. On a snapshot with exactly one reference line,
    [IsFarFromIntersection] ignores the overlap types outside clear-area,
    crosswalk, signal and stop-sign; measures each relevant overlap by
    [overlap.start - ego.boundary.end] against the configured signal
    distance (signal) or 15.0 (the others); returns false as soon as one
    is below its threshold, whatever follows it; and returns true exactly
    when no relevant overlap is below its threshold. *)
Theorem IsFarFromIntersection_characterised
    (frame : Frame) (r : ReferenceLineInfo) :
  reference_line_info frame = [r] ->
  IsFarFromIntersection frame
  = Some (negb (existsb (too_close (AdcSlBoundary r))
                        (FirstEncounteredOverlaps r)))
  /\ (forall seen overlap unseen,
        FirstEncounteredOverlaps r = seen ++ overlap :: unseen ->
        too_close (AdcSlBoundary r) overlap = true ->
        IsFarFromIntersection frame = Some false
        /\ forall unseen',
             IsFarFromIntersection_loop (AdcSlBoundary r)
               (seen ++ overlap :: unseen') = false)
  /\ (IsFarFromIntersection frame = Some true <->
      forall overlap,
        In overlap (FirstEncounteredOverlaps r) ->
        relevant_overlap (fst overlap) = true ->
        (hdmap.start_s (snd overlap) - end_s (AdcSlBoundary r)
         <? overlap_threshold (fst overlap)) = false).
Proof.
  intros Hone.
  assert (Hrun : IsFarFromIntersection frame
                 = Some (negb (existsb (too_close (AdcSlBoundary r))
                                       (FirstEncounteredOverlaps r)))).
  { unfold IsFarFromIntersection. rewrite Hone. cbn.
    rewrite IsFarFromIntersection_loop_existsb. reflexivity. }
  split; [exact Hrun|]. split.
  - intros seen overlap unseen Hsplit Hclose. split.
    + unfold IsFarFromIntersection. rewrite Hone. cbn. rewrite Hsplit.
      rewrite IsFarFromIntersection_loop_stops by exact Hclose.
      reflexivity.
    + intros unseen'. apply IsFarFromIntersection_loop_stops, Hclose.
  - rewrite Hrun. split.
    + intros [= Hnone] overlap Hin Hrel.
      apply negb_true_iff in Hnone.
      destruct (_ <? _) eqn:Hlt; [|reflexivity].
      assert (Hex : existsb (too_close (AdcSlBoundary r))
                            (FirstEncounteredOverlaps r) = true).
      { apply existsb_exists. exists overlap. split; [exact Hin|].
        unfold too_close, overlap_distance. rewrite Hrel, Hlt.
        reflexivity. }
      congruence.
    + intros Hall. f_equal. apply negb_true_iff.
      destruct (existsb _ _) eqn:Hex; [|reflexivity].
      apply existsb_exists in Hex. destruct Hex as (overlap & Hin & Hc).
      unfold too_close, overlap_distance in Hc.
      apply andb_true_iff in Hc. destruct Hc as [Hrel Hlt].
      rewrite (Hall overlap Hin Hrel) in Hlt. discriminate.
Qed.

End Overlaps.

(** ** The obstacle scan of [HasBlockingObstacle] *)

Section Scan.

Context {ext : Collaborators}.
Variable frame : Frame.

Local Open Scope float_scope.

Local Abbreviation dist := (GetDistanceBetweenADCAndObstacle frame).
Local Abbreviation scan := (HasBlockingObstacle_loop frame).

(** The world after the scan has recorded [o]. *)
Local Abbreviation recorded o w :=
  (set_side_pass_front_blocking_obstacle_id (Id o)
     (set_front_blocking_obstacle_id_ (Id o) w)).

Lemma scan_step (o : Obstacle) (rest : list Obstacle)
    (locals : ScanLocals) (w : World) :
  scan (o :: rest) locals w
  = if classified_blocking frame w o then
      if (distance_to_closest_blocking_obstacle locals <? 0.0)
         || (dist o <? distance_to_closest_blocking_obstacle locals)
      then scan rest {| distance_to_closest_blocking_obstacle := dist o;
                        exists_a_blocking_obstacle := true |}
                (recorded o w)
      else scan rest {| distance_to_closest_blocking_obstacle :=
                          distance_to_closest_blocking_obstacle locals;
                        exists_a_blocking_obstacle := true |} w
    else scan rest locals w.
Proof. reflexivity. Qed.


Lemma scan_none_blocking (items : list Obstacle) (locals : ScanLocals)
    (w : World) :
  (forall o, In o items -> classified_blocking frame w o = false) ->
  scan items locals w = (locals, w).
Proof.
  induction items as [|o items IH]; intros H; [reflexivity|].
  rewrite scan_step, (H o (or_introl eq_refl)).
  apply IH. intros o' Hin. apply H. right. exact Hin.
Qed.

Lemma scan_exists_flag (items : list Obstacle) :
  forall (locals : ScanLocals) (w : World),
    exists_a_blocking_obstacle (fst (scan items locals w))
    = exists_a_blocking_obstacle locals
      || existsb (classified_blocking frame w) items.
Proof.
  induction items as [|o items IH]; intros locals w.
  - cbn. rewrite orb_false_r. reflexivity.
  - rewrite scan_step. cbn [existsb].
    destruct (classified_blocking frame w o) eqn:B.
    + destruct (_ || _); rewrite IH; cbn; rewrite orb_true_r; reflexivity.
    + rewrite IH. reflexivity.
Qed.

(** The scan never touches the configuration. *)
Lemma scan_keeps_config (items : list Obstacle) :
  forall (locals : ScanLocals) (w : World),
    scenario_config_ (side_pass_context_ (snd (scan items locals w)))
    = scenario_config_ (side_pass_context_ w).
Proof.
  induction items as [|o items IH]; intros locals w; [reflexivity|].
  rewrite scan_step.
  destruct (classified_blocking frame w o); [|apply IH].
  destruct (_ || _); rewrite IH; reflexivity.
Qed.

(** The scan leaves the world alone or leaves the id of a blocking
    obstacle it visited in both places. *)
Lemma scan_ids (items : list Obstacle) :
  forall (locals : ScanLocals) (w : World),
    snd (scan items locals w) = w
    \/ exists o, In o items
                 /\ classified_blocking frame w o = true
                 /\ context_id (snd (scan items locals w)) = Id o
                 /\ cross_cycle_id (snd (scan items locals w)) = Id o.
Proof.
  induction items as [|o items IH]; intros locals w; [left; reflexivity|].
  rewrite scan_step.
  assert (Hlift : forall l' w',
             (exists o', In o' items
                         /\ classified_blocking frame w o' = true
                         /\ context_id (snd (scan items l' w')) = Id o'
                         /\ cross_cycle_id (snd (scan items l' w')) = Id o')
             -> exists o', In o' (o :: items)
                         /\ classified_blocking frame w o' = true
                         /\ context_id (snd (scan items l' w')) = Id o'
                         /\ cross_cycle_id (snd (scan items l' w')) = Id o').
  { intros l' w' (o' & Hin & Hb & H1 & H2).
    exists o'. repeat split; auto. right. exact Hin. }
  destruct (classified_blocking frame w o) eqn:B.
  - destruct (_ || _).
    + right.
      destruct (IH {| distance_to_closest_blocking_obstacle := dist o;
                      exists_a_blocking_obstacle := true |}
                   (recorded o w)) as [E|H].
      * exists o. rewrite E. repeat split; auto. left. reflexivity.
      * apply Hlift. exact H.
    + destruct (IH {| distance_to_closest_blocking_obstacle :=
                        distance_to_closest_blocking_obstacle locals;
                      exists_a_blocking_obstacle := true |} w) as [E|H].
      * left. exact E.
      * right. apply Hlift. exact H.
  - destruct (IH locals w) as [E|H].
    + left. exact E.
    + right. apply Hlift. exact H.
Qed.

(** Started with the "nothing recorded yet" marker, the scan records the
    first blocking obstacle it meets, so afterwards both places hold the
    id of a blocking obstacle of the registry. *)
Lemma scan_records_some (items : list Obstacle) :
  forall (locals : ScanLocals) (w : World),
    (distance_to_closest_blocking_obstacle locals <? 0.0) = true ->
    existsb (classified_blocking frame w) items = true ->
    exists o, In o items
              /\ classified_blocking frame w o = true
              /\ context_id (snd (scan items locals w)) = Id o
              /\ cross_cycle_id (snd (scan items locals w)) = Id o.
Proof.
  induction items as [|o items IH]; intros locals w Hneg Hex;
    [discriminate|].
  rewrite scan_step. cbn [existsb] in Hex.
  destruct (classified_blocking frame w o) eqn:B.
  - rewrite Hneg. cbn [orb].
    destruct (scan_ids items
                {| distance_to_closest_blocking_obstacle := dist o;
                   exists_a_blocking_obstacle := true |}
                (recorded o w)) as [E|(o' & Hin & Hb & H1 & H2)].
    + exists o. rewrite E. repeat split; auto. left. reflexivity.
    + exists o'. repeat split; auto. right. exact Hin.
  - cbn [orb] in Hex.
    destruct (IH locals w Hneg Hex) as (o' & Hin & Hb & H1 & H2).
    exists o'. repeat split; auto. right. exact Hin.
Qed.

(** [HasBlockingObstacle] on a single reference line, written in terms of
    the scan. *)
Lemma HasBlockingObstacle_single (r : ReferenceLineInfo) (w : World) :
  reference_line_info frame = [r] ->
  HasBlockingObstacle frame w
  = let result :=
      scan (Items (obstacles (path_decision r)))
           {| distance_to_closest_blocking_obstacle := -100.0;
              exists_a_blocking_obstacle := false |} w in
    if exists_a_blocking_obstacle (fst result)
    then Some (true, snd result)
    else Some (false, cleared (snd result)).
Proof.
  intros Hone. unfold HasBlockingObstacle. rewrite Hone. cbn.
  destruct (scan _ _ w) as [locals w']. cbn.
  destruct (exists_a_blocking_obstacle locals); reflexivity.
Qed.

(** C8. On a snapshot with exactly one reference line: when no obstacle of
    its registry is classified as blocking, [HasBlockingObstacle] returns
    false and the only change to the world is that the tracked id is
    empty in the maneuver context and in the cross-cycle state; when some
    obstacle is classified as blocking, it returns true. *)
Theorem HasBlockingObstacle_result (r : ReferenceLineInfo) (w : World) :
  reference_line_info frame = [r] ->
  ((forall o, In o (Items (obstacles (path_decision r))) ->
              classified_blocking frame w o = false) ->
   HasBlockingObstacle frame w = Some (false, cleared w)
   /\ context_id (cleared w) = EmptyString
   /\ cross_cycle_id (cleared w) = EmptyString)
  /\ ((exists o, In o (Items (obstacles (path_decision r)))
                 /\ classified_blocking frame w o = true) ->
      option_map fst (HasBlockingObstacle frame w) = Some true).
Proof.
  intros Hone. rewrite (HasBlockingObstacle_single r w Hone). cbv zeta.
  split.
  - intros Hnone. rewrite scan_none_blocking by exact Hnone.
    repeat split.
  - intros (o & Hin & Hb). rewrite scan_exists_flag.
    assert (Hex : existsb (classified_blocking frame w)
                          (Items (obstacles (path_decision r))) = true).
    { apply existsb_exists. exists o. split; assumption. }
    rewrite Hex. reflexivity.
Qed.

(** C3 (amended). After [HasBlockingObstacle] has run on a snapshot with
    exactly one reference line, the tracked id is the same in the maneuver
    context and in the cross-cycle state, and it is empty or the id of an
    obstacle of that reference line's registry, hence of the snapshot. *)
Theorem HasBlockingObstacle_establishes_invariant
    (r : ReferenceLineInfo) (w w' : World) (b : bool) :
  reference_line_info frame = [r] ->
  HasBlockingObstacle frame w = Some (b, w') ->
  cross_cycle_id w' = context_id w'
  /\ (context_id w' = EmptyString
      \/ exists o, In o (Items (obstacles (path_decision r)))
                   /\ Id o = context_id w')
  /\ EmptyOrInSnapshot frame (context_id w').
Proof.
  intros Hone. rewrite (HasBlockingObstacle_single r w Hone). cbv zeta.
  rewrite scan_exists_flag. cbn [exists_a_blocking_obstacle orb].
  destruct (existsb _ _) eqn:Hex.
  - intros [= <- <-].
    destruct (scan_records_some
                (Items (obstacles (path_decision r)))
                {| distance_to_closest_blocking_obstacle := -100.0;
                   exists_a_blocking_obstacle := false |} w
                eq_refl Hex) as (o & Hin & _ & H1 & H2).
    split; [congruence|]. split.
    + right. exists o. split; [exact Hin|congruence].
    + right. exists o. split; [|congruence].
      unfold snapshot_obstacles. rewrite Hone. cbn [flat_map].
      apply in_or_app. right. apply in_or_app. left. exact Hin.
  - intros [= <- <-]. split; [reflexivity|].
    split; left; reflexivity.
Qed.

End Scan.

(** ** The closest blocking obstacle *)

Section Closest.

Context {ext : Collaborators}.
Variable frame : Frame.

Local Open Scope float_scope.

Local Abbreviation dist := (GetDistanceBetweenADCAndObstacle frame).
Local Abbreviation scan := (HasBlockingObstacle_loop frame).
Local Abbreviation recorded o w :=
  (set_side_pass_front_blocking_obstacle_id (Id o)
     (set_front_blocking_obstacle_id_ (Id o) w)).








End Closest.

(** ** Continuation at the abort distance, and stage creation *)

Section Continuation.

Context {ext : Collaborators}.

Local Open Scope float_scope.

(** [IsTransferable] in the continuation case, once the tracked obstacle
    has been found static on the single reference line. *)
Lemma IsTransferable_continuation
    (current_scenario : Scenario) (frame : Frame) (r : ReferenceLineInfo)
    (o : Obstacle) (w : World) :
  scenario_type current_scenario = ScenarioConfig.SIDE_PASS ->
  reference_line_info frame = [r] ->
  Find frame (cross_cycle_id w) = Some o ->
  IsStatic o = true ->
  IsTransferable current_scenario frame w
  = if 10.0 <? gap r o then Some (false, w)
    else Some (negb (ScenarioStatus_eqb (GetStatus current_scenario)
                                        STATUS_DONE),
               set_msg_ ("side pass obstacle: " ++ cross_cycle_id w) w).
Proof.
  intros Hty Hone Hfind Hstatic. unfold IsTransferable, cross_cycle_id in *.
  rewrite Hone. cbn [List.length Nat.ltb Nat.leb].
  unfold bind at 1. unfold gets at 1. rewrite Hty, Hfind, Hstatic.
  cbn [negb]. unfold bind at 1. unfold pure_call at 1. cbn [front].
  unfold gap, kSidePassMaxDistance.
  destruct (10.0 <? _); reflexivity.
Qed.

(** C2 (amended). In the continuation case, with the tracked obstacle
    found and static on the single reference line: at a gap of exactly
    10.0 [IsTransferable] returns true unless the status of the current
    scenario is DONE, in which case it returns false; at any gap above
    10.0 it returns false. *)
Theorem continuation_abort_boundary
    (current_scenario : Scenario) (frame : Frame) (r : ReferenceLineInfo)
    (o : Obstacle) (w : World) :
  scenario_type current_scenario = ScenarioConfig.SIDE_PASS ->
  reference_line_info frame = [r] ->
  Find frame (cross_cycle_id w) = Some o ->
  IsStatic o = true ->
  (gap r o = 10.0 ->
   GetStatus current_scenario <> STATUS_DONE ->
   option_map fst (IsTransferable current_scenario frame w) = Some true)
  /\ (gap r o = 10.0 ->
      GetStatus current_scenario = STATUS_DONE ->
      option_map fst (IsTransferable current_scenario frame w)
      = Some false)
  /\ ((10.0 <? gap r o) = true ->
      IsTransferable current_scenario frame w = Some (false, w)).
Proof.
  intros Hty Hone Hfind Hstatic.
  rewrite (IsTransferable_continuation _ _ _ _ _ Hty Hone Hfind Hstatic).
  repeat split.
  - intros -> Hstatus. cbn.
    destruct (GetStatus current_scenario); try reflexivity.
    contradiction Hstatus. reflexivity.
  - intros -> ->. reflexivity.
  - intros ->. reflexivity.
Qed.

Lemma RegisterStages_total (w : World) :
  exists f : Factory,
    RegisterStages w = Some (tt, set_s_stage_factory_ f w)
    /\ Factory_Empty f = false.
Proof.
  unfold RegisterStages, bind, gets, modify, ret.
  destruct w as [ctx m id f log]. cbn [s_stage_factory_].
  destruct f as [|entry f]; cbn [Factory_Empty negb].
  - eexists. split; reflexivity.
  - exists (entry :: f). split; reflexivity.
Qed.

(** C9. When the stage type of the requested configuration is not in the
    registry that [CreateStage] looks it up in (the static factory after
    the lazy registration), [CreateStage] returns null and its only other
    effect is one error line that contains the requested configuration.
    [CreateStage] has a result for every configuration and every world:
    nothing is thrown and nothing is undefined. *)
Theorem CreateStage_unregistered_null
    (stage_config : ScenarioConfig.StageConfig) (w w1 : World) :
  RegisterStages w = Some (tt, w1) ->
  Factory_lookup (s_stage_factory_ w1)
                 (ScenarioConfig.stage_type stage_config) = None ->
  CreateStage stage_config w
  = Some (None,
          AERROR ("Failed to create stage for config: "
                    ++ DebugString stage_config) w1)
  /\ error_log (AERROR ("Failed to create stage for config: "
                          ++ DebugString stage_config) w1)
     = (error_log w
          ++ [("Failed to create stage for config: "
                 ++ DebugString stage_config)%string])%list
  /\ forall (any_config : ScenarioConfig.StageConfig) (w0 : World),
       exists (result : option Stage) (w' : World),
         CreateStage any_config w0 = Some (result, w').
Proof.
  intros Hreg Hlookup. split; [|split].
  - unfold CreateStage. unfold bind at 1. rewrite Hreg.
    unfold bind at 1. unfold gets at 1.
    unfold CreateObjectOrNull. rewrite Hlookup. reflexivity.
  - destruct (RegisterStages_total w) as (f & Hf & _).
    rewrite Hf in Hreg. injection Hreg as <-. reflexivity.
  - intros any_config w0. unfold CreateStage. unfold bind at 1.
    destruct (RegisterStages_total w0) as (f & -> & _).
    unfold bind at 1. unfold gets at 1.
    destruct (CreateObjectOrNull _ _ _); eexists; eexists; reflexivity.
Qed.

End Continuation.

(** ** Concrete runs *)

Module Runs.

Import Fixture.

#[local] Existing Instance collaborators.

Local Open Scope string_scope.
Local Open Scope float_scope.

(** What a run of a stateful member function shows: its result and the
    tracked id in the maneuver context and in the cross-cycle state. *)
Local Abbreviation observe run :=
  (option_map (fun rw => (fst rw, context_id (snd rw),
                          cross_cycle_id (snd rw))) run).

(** Closest wins: gaps 8.0 and 3.0. *)
Example closest_of_two :
  observe (HasBlockingObstacle far_then_near (world ""))
  = Some (true, "near", "near").
Proof. reflexivity. Qed.

(** First found wins among equal gaps. *)
Example first_of_twins :
  observe (HasBlockingObstacle twins (world ""))
  = Some (true, "first", "first").
Proof. reflexivity. Qed.

(** Entry from the default driving behaviour. *)
Example entry_run :
  observe (IsTransferable in_lane_follow entry (world ""))
  = Some (true, "a", "a").
Proof. reflexivity. Qed.

(** Continuation at gap 10.0 and at gap 10.0001 (the double the literal
    denotes, [0x1.4000d1b71758ep+3]). *)
Example continuation_at_boundary :
  gap (line 20.0 [] []) (parked "a" 15.0) = 10.0
  /\ observe (IsTransferable (in_side_pass STATUS_PROCESSING)
                             at_abort_distance (world "a"))
     = Some (true, "a", "a")
  /\ gap (line 20.0 [] []) (parked "a" just_beyond) = 0x1.4000d1b71758ep+3
  /\ (10.0 <? gap (line 20.0 [] []) (parked "a" just_beyond)) = true
  /\ observe (IsTransferable (in_side_pass STATUS_PROCESSING)
                             beyond_abort_distance (world "a"))
     = Some (false, "a", "a").
Proof. repeat split. Qed.

(** A registered stage type yields a stage that holds the context. *)
Example CreateStage_registered :
  option_map fst
    (CreateStage {| ScenarioConfig.stage_type :=
                      ScenarioConfig.SIDE_PASS_DEFAULT_STAGE;
                    ScenarioConfig.enabled := true |} (world ""))
  = Some (Some {| config_ :=
                    {| ScenarioConfig.stage_type :=
                         ScenarioConfig.SIDE_PASS_DEFAULT_STAGE;
                       ScenarioConfig.enabled := true |};
                  context_ := Some side_pass_context_ptr |}).
Proof. reflexivity. Qed.

(** *** C1 *)


(** *** C2 *)

(** C2 as stated fails when the current scenario has status DONE: the
    tracked obstacle is found, static, at a gap of exactly 10.0, and
    [IsTransferable] returns false. *)
Lemma done_at_abort_distance_false :
  scenario_type (in_side_pass STATUS_DONE) = ScenarioConfig.SIDE_PASS
  /\ reference_line_info at_abort_distance
     = [line 20.0 [] [parked "a" 15.0]]
  /\ Find at_abort_distance (cross_cycle_id (world "a"))
     = Some (parked "a" 15.0)
  /\ IsStatic (parked "a" 15.0) = true
  /\ gap (line 20.0 [] [parked "a" 15.0]) (parked "a" 15.0) = 10.0
  /\ option_map fst (IsTransferable (in_side_pass STATUS_DONE)
                                    at_abort_distance (world "a"))
     = Some false.
Proof. repeat split. Qed.

Lemma continuation_abort_boundary_witness :
  scenario_type (in_side_pass STATUS_PROCESSING)
  = ScenarioConfig.SIDE_PASS
  /\ reference_line_info at_abort_distance
     = [line 20.0 [] [parked "a" 15.0]]
  /\ Find at_abort_distance (cross_cycle_id (world "a"))
     = Some (parked "a" 15.0)
  /\ IsStatic (parked "a" 15.0) = true
  /\ gap (line 20.0 [] [parked "a" 15.0]) (parked "a" 15.0) = 10.0
  /\ option_map fst (IsTransferable (in_side_pass STATUS_PROCESSING)
                                    at_abort_distance (world "a"))
     = Some true.
Proof.
  repeat (split; [reflexivity|]).
  apply (continuation_abort_boundary (in_side_pass STATUS_PROCESSING)
           at_abort_distance (line 20.0 [] [parked "a" 15.0])
           (parked "a" 15.0) (world "a"));
    try reflexivity.
  discriminate.
Defined.

(** *** C3 *)

(** C3 as stated fails after construction and after [IsTransferable]:
    the first cycle records obstacle "a"; in the second cycle "a" is gone
    from the snapshot, the scenario object is built again and
    [IsTransferable] runs, and through both the maneuver context holds
    "a". *)
Lemma stale_id_after_construction :
  exists w1 w2 w3 : World,
    HasBlockingObstacle entry (world "") = Some (true, w1)
    /\ SidePassScenario config_msg w1 = Some (tt, w2)
    /\ IsTransferable (in_side_pass STATUS_PROCESSING) empty_road w2
       = Some (false, w3)
    /\ context_id w2 = "a"
    /\ context_id w3 = "a"
    /\ ~ EmptyOrInSnapshot empty_road (context_id w2)
    /\ ~ EmptyOrInSnapshot empty_road (context_id w3).
Proof.
  exists (world "a"), (world "a"), (world "a").
  repeat (split; [reflexivity|]).
  split; intros [H|(o & [] & _)]; discriminate H.
Qed.

Lemma HasBlockingObstacle_establishes_invariant_witness :
  reference_line_info far_then_near
  = [line 20.0 [] [parked "far" 13.0; parked "near" 8.0]]
  /\ HasBlockingObstacle far_then_near (world "stale")
     = Some (true, world "near")
  /\ EmptyOrInSnapshot far_then_near "near".
Proof.
  split; [reflexivity|]. split; [reflexivity|].
  apply (HasBlockingObstacle_establishes_invariant far_then_near
           (line 20.0 [] [parked "far" 13.0; parked "near" 8.0])
           (world "stale") (world "near") true);
    reflexivity.
Defined.

(** *** C4 and C10 *)

Lemma ambiguous_topology_all_false_witness :
  (1 < List.length (reference_line_info (forked (parked "a" 8.0%float))))%nat
  /\ option_map fst (IsTransferable in_lane_follow
                       (forked (parked "a" 8.0%float)) (world "old"))
     = Some false
  /\ IsFarFromDestination (forked (parked "a" 8.0%float)) = Some false
  /\ IsFarFromIntersection (forked (parked "a" 8.0%float)) = Some false
  /\ option_map fst (HasBlockingObstacle (forked (parked "a" 8.0%float))
                                         (world "old"))
     = Some false.
Proof.
  split; [cbn; lia|].
  apply (ambiguous_topology_all_false in_lane_follow
           (forked (parked "a" 8.0)) (world "old")).
  cbn. lia.
Defined.

Lemma HasBlockingObstacle_ambiguous_topology_keeps_id_witness :
  (1 < List.length (reference_line_info (forked (moving "a" 8.0%float))))%nat
  /\ exists w' : World,
       HasBlockingObstacle (forked (moving "a" 8.0%float)) (world "old")
       = Some (false, w')
       /\ w' = world "old"
       /\ context_id w' = context_id (world "old")
       /\ cross_cycle_id w' = cross_cycle_id (world "old").
Proof.
  split; [cbn; lia|].
  apply (HasBlockingObstacle_ambiguous_topology_keeps_id
           (forked (moving "a" 8.0%float)) (world "old")).
  cbn. lia.
Defined.

(** *** C5 *)

Lemma continuation_stale_obstacle_false_witness :
  scenario_type (in_side_pass STATUS_PROCESSING)
  = ScenarioConfig.SIDE_PASS
  /\ Find empty_road (cross_cycle_id (world "a")) = None
  /\ IsTransferable (in_side_pass STATUS_PROCESSING) empty_road (world "a")
     = Some (false, world "a")
  /\ Find only_moving (cross_cycle_id (world "a")) = Some (moving "a" 8.0)
  /\ IsStatic (moving "a" 8.0) = false
  /\ IsTransferable (in_side_pass STATUS_PROCESSING) only_moving
                    (world "a")
     = Some (false, world "a").
Proof.
  split; [reflexivity|]. split; [reflexivity|]. split.
  - apply (continuation_stale_obstacle_false
             (in_side_pass STATUS_PROCESSING) empty_road (world "a"));
      reflexivity.
  - split; [reflexivity|]. split; [reflexivity|].
    apply (proj2 (continuation_stale_obstacle_false
                    (in_side_pass STATUS_PROCESSING) only_moving
                    (world "a") eq_refl)
             (moving "a" 8.0));
      reflexivity.
Defined.

(** *** C6 *)

Lemma entry_blocked_by_destination_witness :
  scenario_type in_lane_follow = ScenarioConfig.LANE_FOLLOW
  /\ IsFarFromDestination near_destination = Some false
  /\ IsTransferable in_lane_follow near_destination (world "old")
     = Some (false, world "old").
Proof.
  split; [reflexivity|]. split; [reflexivity|].
  apply (entry_blocked_by_destination in_lane_follow near_destination
           (world "old"));
    reflexivity.
Defined.

(** *** C7 *)

Lemma IsFarFromIntersection_characterised_witness :
  reference_line_info junction_then_crosswalk
  = [line 20.0
       [overlap_at PNC_JUNCTION 6.0; overlap_at SIGNAL 60.0;
        overlap_at CROSSWALK 19.0; overlap_at STOP_SIGN 30.0] []]
  /\ too_close ego (overlap_at PNC_JUNCTION 6.0) = false
  /\ too_close ego (overlap_at SIGNAL 60.0) = false
  /\ too_close ego (overlap_at CROSSWALK 19.0) = true
  /\ IsFarFromIntersection junction_then_crosswalk = Some false.
Proof.
  repeat (split; [reflexivity|]).
  apply (proj1 (proj2 (IsFarFromIntersection_characterised
                         junction_then_crosswalk
                         (line 20.0
                            [overlap_at PNC_JUNCTION 6.0;
                             overlap_at SIGNAL 60.0;
                             overlap_at CROSSWALK 19.0;
                             overlap_at STOP_SIGN 30.0] [])
                         eq_refl))
           [overlap_at PNC_JUNCTION 6.0; overlap_at SIGNAL 60.0]
           (overlap_at CROSSWALK 19.0)
           [overlap_at STOP_SIGN 30.0]);
    reflexivity.
Defined.

(** *** C8 *)

Lemma HasBlockingObstacle_result_witness :
  reference_line_info only_moving = [line 20.0 [] [moving "a" 8.0]]
  /\ classified_blocking only_moving (world "old") (moving "a" 8.0)
     = false
  /\ HasBlockingObstacle only_moving (world "old")
     = Some (false, cleared (world "old")).
Proof.
  split; [reflexivity|]. split; [reflexivity|].
  apply (proj1 (HasBlockingObstacle_result only_moving
                  (line 20.0 [] [moving "a" 8.0]) (world "old")
                  eq_refl)).
  intros o [<-|[]]. reflexivity.
Defined.

(** *** C9 *)

Lemma CreateStage_unregistered_null_witness :
  RegisterStages (world "")
  = Some (tt, set_s_stage_factory_
                [(ScenarioConfig.SIDE_PASS_DEFAULT_STAGE, StageSidePass)]
                (world ""))
  /\ Factory_lookup
       [(ScenarioConfig.SIDE_PASS_DEFAULT_STAGE, StageSidePass)]
       (ScenarioConfig.stage_type unknown_stage) = None
  /\ CreateStage unknown_stage (world "")
     = Some (None,
             AERROR "Failed to create stage for config: stage_type: UNKNOWN"
               (set_s_stage_factory_
                  [(ScenarioConfig.SIDE_PASS_DEFAULT_STAGE, StageSidePass)]
                  (world ""))).
Proof.
  split; [reflexivity|]. split; [reflexivity|].
  exact (proj1 (CreateStage_unregistered_null unknown_stage (world "")
                  (set_s_stage_factory_
                     [(ScenarioConfig.SIDE_PASS_DEFAULT_STAGE,
                       StageSidePass)]
                     (world ""))
                  eq_refl eq_refl)).
Defined.

End Runs.

(** * Further properties of the member functions *)

(** ** Stage registration and creation *)

Section Stages.

Context {ext : Collaborators}.

Lemma RegisterStages_run (w : World) :
  RegisterStages w
  = Some (tt,
          if Factory_Empty (s_stage_factory_ w)
          then set_s_stage_factory_
                 [(ScenarioConfig.SIDE_PASS_DEFAULT_STAGE, StageSidePass)] w
          else w).
Proof.
  unfold RegisterStages, bind, gets, modify, ret.
  destruct w as [ctx m id f log]. cbn [s_stage_factory_].
  destruct f as [|entry f]; reflexivity.
Qed.

Lemma CreateStage_run (stage_config : ScenarioConfig.StageConfig)
    (w w1 : World) :
  RegisterStages w = Some (tt, w1) ->
  CreateStage stage_config w
  = match Factory_lookup (s_stage_factory_ w1)
                         (ScenarioConfig.stage_type stage_config) with
    | Some creator =>
        Some (Some (SetContext side_pass_context_ptr (creator stage_config)),
              w1)
    | None =>
        Some (None,
              AERROR ("Failed to create stage for config: "
                        ++ DebugString stage_config) w1)
    end.
Proof.
  intros Hreg. unfold CreateStage. unfold bind at 1. rewrite Hreg.
  unfold bind at 1. unfold gets at 1. unfold CreateObjectOrNull.
  destruct (Factory_lookup _ _); reflexivity.
Qed.

(** X1. [RegisterStages] is idempotent and touches nothing but the static
    factory: run on an empty factory it leaves exactly one entry, the
    default stage with the [StageSidePass] constructor; run on a non-empty
    factory it changes nothing; run a second time it changes nothing. *)
Theorem RegisterStages_idempotent (w : World) :
  exists w1 : World,
    RegisterStages w = Some (tt, w1)
    /\ RegisterStages w1 = Some (tt, w1)
    /\ SameButFactory w w1
    /\ (s_stage_factory_ w = [] ->
        s_stage_factory_ w1
        = [(ScenarioConfig.SIDE_PASS_DEFAULT_STAGE, StageSidePass)])
    /\ (s_stage_factory_ w <> [] -> w1 = w).
Proof.
  rewrite RegisterStages_run.
  destruct w as [ctx m id f log]. cbn [s_stage_factory_].
  destruct f as [|entry f]; cbn [Factory_Empty].
  - eexists. split; [reflexivity|]. repeat split.
    intros H. contradiction H. reflexivity.
  - eexists. split; [reflexivity|]. repeat split.
    intros H. discriminate H.
Qed.

(** X2. When the requested stage type is in the factory after the lazy
    registration, [CreateStage] returns the stage its constructor builds
    from the requested configuration, with the pointer to the scenario's
    context set, and logs nothing; the tracked id is not touched. *)
Theorem CreateStage_registered_stage
    (stage_config : ScenarioConfig.StageConfig) (w w1 : World)
    (creator : ScenarioConfig.StageConfig -> Stage) :
  RegisterStages w = Some (tt, w1) ->
  Factory_lookup (s_stage_factory_ w1)
                 (ScenarioConfig.stage_type stage_config) = Some creator ->
  CreateStage stage_config w
  = Some (Some {| config_ := config_ (creator stage_config);
                  context_ := Some side_pass_context_ptr |}, w1)
  /\ error_log w1 = error_log w
  /\ context_id w1 = context_id w
  /\ cross_cycle_id w1 = cross_cycle_id w.
Proof.
  intros Hreg Hlookup.
  rewrite (CreateStage_run _ _ _ Hreg), Hlookup.
  split; [reflexivity|].
  rewrite RegisterStages_run in Hreg. injection Hreg as <-.
  destruct (Factory_Empty _); repeat split.
Qed.

(** X3. In a process whose factory is still empty, [CreateStage] yields a
    stage exactly for the default stage type: that stage holds the requested
    configuration and the context pointer; every other stage type yields
    null. *)
Theorem CreateStage_fresh_factory
    (stage_config : ScenarioConfig.StageConfig) (w : World) :
  s_stage_factory_ w = [] ->
  option_map fst (CreateStage stage_config w)
  = Some (if ScenarioConfig.StageType_eqb
               (ScenarioConfig.stage_type stage_config)
               ScenarioConfig.SIDE_PASS_DEFAULT_STAGE
          then Some {| config_ := stage_config;
                       context_ := Some side_pass_context_ptr |}
          else None).
Proof.
  intros Hempty.
  rewrite (CreateStage_run stage_config w _ (RegisterStages_run w)).
  rewrite Hempty. cbn [Factory_Empty s_stage_factory_ set_s_stage_factory_
                       Factory_lookup].
  destruct (ScenarioConfig.stage_type stage_config); reflexivity.
Qed.

(** X4. [CreateStage] may be called every cycle: a second call with the same
    configuration returns the same stage (or null again) and leaves the
    factory as the first call left it. *)
Theorem CreateStage_again
    (stage_config : ScenarioConfig.StageConfig) (w w1 : World)
    (stage : option Stage) :
  CreateStage stage_config w = Some (stage, w1) ->
  exists w2 : World,
    CreateStage stage_config w1 = Some (stage, w2)
    /\ s_stage_factory_ w2 = s_stage_factory_ w1.
Proof.
  rewrite (CreateStage_run stage_config w _ (RegisterStages_run w)).
  rewrite (CreateStage_run stage_config w1 _ (RegisterStages_run w1)).
  destruct w as [ctx m id f log]. cbn [s_stage_factory_].
  destruct f as [|entry f]; cbn [Factory_Empty s_stage_factory_
                                 set_s_stage_factory_].
  - destruct (Factory_lookup _ _) eqn:Hl; intros [= <- <-];
      cbn [Factory_Empty s_stage_factory_ set_s_stage_factory_ AERROR];
      rewrite Hl; eexists; split; reflexivity.
  - destruct (Factory_lookup _ _) eqn:Hl; intros [= <- <-];
      cbn [Factory_Empty s_stage_factory_ set_s_stage_factory_ AERROR];
      rewrite Hl; eexists; split; reflexivity.
Qed.

End Stages.

(** ** What the member functions leave alone *)

Section Footprint.

Context {ext : Collaborators}.

Local Open Scope float_scope.

Lemma scan_same_but_ids (frame : Frame) (items : list Obstacle) :
  forall (locals : ScanLocals) (w : World),
    cleared (snd (HasBlockingObstacle_loop frame items locals w)) = cleared w.
Proof.
  induction items as [|o items IH]; intros locals w; [reflexivity|].
  rewrite scan_step.
  destruct (classified_blocking frame w o); [|apply IH].
  destruct (_ || _); rewrite IH; reflexivity.
Qed.

(** [HasBlockingObstacle] by the number of reference lines. *)
Lemma HasBlockingObstacle_cases (frame : Frame) (w : World) :
  match reference_line_info frame with
  | [] => HasBlockingObstacle frame w = None
  | [r] =>
      HasBlockingObstacle frame w
      = let result :=
          HasBlockingObstacle_loop frame
            (Items (obstacles (path_decision r)))
            {| distance_to_closest_blocking_obstacle := -100.0;
               exists_a_blocking_obstacle := false |} w in
        if exists_a_blocking_obstacle (fst result)
        then Some (true, snd result)
        else Some (false, cleared (snd result))
  | _ :: _ :: _ => HasBlockingObstacle frame w = Some (false, w)
  end.
Proof.
  destruct (reference_line_info frame) as [|r [|r' rest]] eqn:Hlines.
  - unfold HasBlockingObstacle. rewrite Hlines. reflexivity.
  - apply HasBlockingObstacle_single. exact Hlines.
  - unfold HasBlockingObstacle. rewrite Hlines. reflexivity.
Qed.

Lemma HasBlockingObstacle_same_but_ids (frame : Frame) (w w' : World)
    (b : bool) :
  HasBlockingObstacle frame w = Some (b, w') -> cleared w' = cleared w.
Proof.
  pose proof (HasBlockingObstacle_cases frame w) as Hcases.
  destruct (reference_line_info frame) as [|r [|r' rest]];
    rewrite Hcases; clear Hcases; try discriminate.
  - cbv zeta. destruct (exists_a_blocking_obstacle _);
      intros [= <- <-].
    + apply scan_same_but_ids.
    + change (cleared (cleared ?x)) with (cleared x).
      apply scan_same_but_ids.
  - intros [= <- <-]. reflexivity.
Qed.

Lemma HasBlockingObstacle_in_sync (frame : Frame) (w w' : World) (b : bool) :
  InSync w -> HasBlockingObstacle frame w = Some (b, w') -> InSync w'.
Proof.
  intros Hsync.
  pose proof (HasBlockingObstacle_cases frame w) as Hcases.
  destruct (reference_line_info frame) as [|r [|r' rest]];
    rewrite Hcases; clear Hcases; try discriminate.
  - cbv zeta. destruct (exists_a_blocking_obstacle _);
      intros [= <- <-]; [|reflexivity].
    destruct (scan_ids frame (Items (obstacles (path_decision r)))
                {| distance_to_closest_blocking_obstacle := -100.0;
                   exists_a_blocking_obstacle := false |} w)
      as [->|(o & _ & _ & H1 & H2)].
    + exact Hsync.
    + unfold InSync. congruence.
  - intros [= <- <-]. exact Hsync.
Qed.

(** X5. [HasBlockingObstacle] changes nothing but the tracked id: the
    configuration in the maneuver context, [msg_], the stage factory and the
    error log are after the call what they were before it, on every
    snapshot. *)
Theorem HasBlockingObstacle_footprint (frame : Frame) (w w' : World)
    (b : bool) :
  HasBlockingObstacle frame w = Some (b, w') ->
  SameButIds w w'
  /\ scenario_config_ (side_pass_context_ w')
     = scenario_config_ (side_pass_context_ w)
  /\ msg_ w' = msg_ w
  /\ s_stage_factory_ w' = s_stage_factory_ w
  /\ error_log w' = error_log w.
Proof.
  intros Hrun. apply HasBlockingObstacle_same_but_ids in Hrun.
  split; [symmetry; exact Hrun|].
  destruct w as [[cfg cid] m id f log], w' as [[cfg' cid'] m' id' f' log'].
  injection Hrun as -> -> -> ->. repeat split.
Qed.

(** X6. [IsTransferable] changes nothing but the tracked id and [msg_]: the
    configuration, the stage factory and the error log are untouched,
    whichever path the call takes. *)
Theorem IsTransferable_footprint
    (current_scenario : Scenario) (frame : Frame) (w w' : World) (b : bool) :
  IsTransferable current_scenario frame w = Some (b, w') ->
  SameButIdsAndMsg w w'
  /\ scenario_config_ (side_pass_context_ w')
     = scenario_config_ (side_pass_context_ w)
  /\ s_stage_factory_ w' = s_stage_factory_ w
  /\ error_log w' = error_log w.
Proof.
  intros Hrun.
  assert (H : set_msg_ EmptyString (cleared w')
              = set_msg_ EmptyString (cleared w)).
  { revert Hrun. unfold IsTransferable.
    destruct (1 <? List.length (reference_line_info frame))%nat.
    { intros [= <- <-]. reflexivity. }
    unfold bind at 1. unfold gets at 1.
    destruct (scenario_type current_scenario).
    - unfold bind at 1. unfold IsSidePassScenario, and_then, bind, pure_call.
      destruct (IsFarFromDestination frame) as [[|]|]; try discriminate.
      + destruct (IsFarFromIntersection frame) as [[|]|]; try discriminate.
        * destruct (HasBlockingObstacle frame w) as [[[|] w0]|] eqn:Hhas;
            try discriminate;
            apply HasBlockingObstacle_same_but_ids in Hhas;
            unfold modify, ret; intros [= <- <-];
            change (cleared (set_msg_ ?m ?x)) with (set_msg_ m (cleared x));
            rewrite Hhas; reflexivity.
        * unfold ret. intros [= <- <-]. reflexivity.
      + unfold ret. intros [= <- <-]. reflexivity.
    - destruct (Find frame (side_pass_front_blocking_obstacle_id w)) as [o|].
      + destruct (negb (IsStatic o)).
        { intros [= <- <-]. reflexivity. }
        unfold bind, pure_call.
        destruct (front (reference_line_info frame)) as [r|];
          try discriminate.
        destruct (kSidePassMaxDistance <? _).
        * intros [= <- <-]. reflexivity.
        * unfold modify, ret. intros [= <- <-]. reflexivity.
      + intros [= <- <-]. reflexivity.
    - intros [= <- <-]. reflexivity. }
  split; [symmetry; exact H|].
  destruct w as [[cfg cid] m id f log], w' as [[cfg' cid'] m' id' f' log'].
  injection H as -> -> ->. repeat split.
Qed.

(** X7. The maneuver context and the cross-cycle state never drift apart:
    the constructor makes them agree on the tracked id, and
    [HasBlockingObstacle], [IsTransferable] and [CreateStage] keep them in
    agreement on every snapshot. *)
Theorem tracked_id_stays_in_sync (w : World) :
  InSync w ->
  (forall frame b w',
      HasBlockingObstacle frame w = Some (b, w') -> InSync w')
  /\ (forall current_scenario frame b w',
        IsTransferable current_scenario frame w = Some (b, w') -> InSync w')
  /\ (forall stage_config stage w',
        CreateStage stage_config w = Some (stage, w') -> InSync w')
  /\ (forall config w0 w',
        SidePassScenario config w0 = Some (tt, w') -> InSync w').
Proof.
  intros Hsync. repeat split.
  - intros frame b w'. apply HasBlockingObstacle_in_sync. exact Hsync.
  - intros cs frame b w' Hrun.
    destruct (IsTransferable_ids _ _ _ _ _ Hrun)
      as [[E1 E2]|(_ & _ & _ & w0 & Hhas & E1 & E2)].
    + unfold InSync in *. congruence.
    + apply (HasBlockingObstacle_in_sync _ _ _ _ Hsync) in Hhas.
      unfold InSync in *. congruence.
  - intros stage_config stage w'.
    rewrite (CreateStage_run stage_config w _ (RegisterStages_run w)).
    destruct (Factory_lookup _ _); intros [= <- <-];
      destruct (Factory_Empty _); exact Hsync.
  - intros config w0 w'. unfold SidePassScenario, bind, gets, modify.
    intros [= <-]. reflexivity.
Qed.

End Footprint.

(** ** The scan overwrites, and what it does with negative distances *)

Section Overwrite.

Context {ext : Collaborators}.
Variable frame : Frame.

Local Open Scope float_scope.

Local Abbreviation dist := (GetDistanceBetweenADCAndObstacle frame).
Local Abbreviation scan := (HasBlockingObstacle_loop frame).

(** A world is its cleared form together with the two copies of the id. *)
Lemma world_ext (w1 w2 : World) :
  cleared w1 = cleared w2 ->
  context_id w1 = context_id w2 ->
  cross_cycle_id w1 = cross_cycle_id w2 ->
  w1 = w2.
Proof.
  destruct w1 as [[cfg1 cid1] m1 id1 f1 log1],
           w2 as [[cfg2 cid2] m2 id2 f2 log2].
  unfold context_id, cross_cycle_id. cbn.
  intros [= -> -> -> ->] -> ->. reflexivity.
Qed.

Lemma classified_blocking_same_but_ids (w1 w2 : World) (o : Obstacle) :
  cleared w1 = cleared w2 ->
  classified_blocking frame w1 o = classified_blocking frame w2 o.
Proof.
  intros H.
  change (classified_blocking frame (cleared w1) o
          = classified_blocking frame (cleared w2) o).
  rewrite H. reflexivity.
Qed.

(** While nothing is recorded yet, two scans that start from worlds
    differing only in the stored id either both leave their world alone
    (and have met no blocking obstacle) or end in the same world. *)
Lemma scan_overwrites (items : list Obstacle) :
  forall (locals : ScanLocals) (w1 w2 : World),
    cleared w1 = cleared w2 ->
    (distance_to_closest_blocking_obstacle locals <? 0.0) = true ->
    (scan items locals w1 = (locals, w1) /\ scan items locals w2 = (locals, w2))
    \/ (scan items locals w1 = scan items locals w2
        /\ exists_a_blocking_obstacle (fst (scan items locals w1)) = true).
Proof.
  induction items as [|o items IH]; intros locals w1 w2 Hsame Hneg.
  - left. split; reflexivity.
  - rewrite !scan_step.
    rewrite <- (classified_blocking_same_but_ids w1 w2 o Hsame).
    destruct (classified_blocking frame w1 o).
    + rewrite Hneg. cbn [orb]. right.
      assert (E : set_side_pass_front_blocking_obstacle_id (Id o)
                    (set_front_blocking_obstacle_id_ (Id o) w1)
                  = set_side_pass_front_blocking_obstacle_id (Id o)
                      (set_front_blocking_obstacle_id_ (Id o) w2)).
      { apply world_ext; [exact Hsame|reflexivity|reflexivity]. }
      rewrite E. split; [reflexivity|].
      rewrite scan_exists_flag. reflexivity.
    + apply IH; assumption.
Qed.

Lemma HasBlockingObstacle_single_overwrites
    (r : ReferenceLineInfo) (w1 w2 : World) :
  reference_line_info frame = [r] ->
  cleared w1 = cleared w2 ->
  HasBlockingObstacle frame w1 = HasBlockingObstacle frame w2.
Proof.
  intros Hone Hsame.
  rewrite !(HasBlockingObstacle_single frame r _ Hone). cbv zeta.
  destruct (scan_overwrites (Items (obstacles (path_decision r)))
              {| distance_to_closest_blocking_obstacle := -100.0;
                 exists_a_blocking_obstacle := false |}
              w1 w2 Hsame eq_refl) as [[E1 E2]|[E _]].
  - rewrite E1, E2. cbn. f_equal. f_equal. exact Hsame.
  - rewrite E. reflexivity.
Qed.

(** X8. On a single reference line the outcome of [HasBlockingObstacle] does
    not depend on the id stored before the call: from two worlds that differ
    only in the tracked id it returns the same result and leaves the same
    world, with the same id in both places. *)
Theorem HasBlockingObstacle_overwrites
    (r : ReferenceLineInfo) (w1 w2 : World) :
  reference_line_info frame = [r] ->
  SameButIds w1 w2 ->
  HasBlockingObstacle frame w1 = HasBlockingObstacle frame w2.
Proof.
  intros Hone Hsame.
  exact (HasBlockingObstacle_single_overwrites r w1 w2 Hone Hsame).
Qed.

(** X9. [HasBlockingObstacle] is idempotent: called again on the same
    snapshot right after a call, it returns the same result and leaves the
    world as the first call left it. *)
Theorem HasBlockingObstacle_idempotent (w w' : World) (b : bool) :
  HasBlockingObstacle frame w = Some (b, w') ->
  HasBlockingObstacle frame w' = Some (b, w').
Proof.
  intros Hrun.
  pose proof (HasBlockingObstacle_same_but_ids frame w w' b Hrun) as Hsame.
  destruct (reference_line_info frame) as [|r [|r' rest]] eqn:Hlines.
  - unfold HasBlockingObstacle in Hrun. rewrite Hlines in Hrun.
    discriminate Hrun.
  - rewrite (HasBlockingObstacle_single_overwrites r w' w Hlines Hsame).
    exact Hrun.
  - unfold HasBlockingObstacle in *. rewrite Hlines in *.
    cbn in *. injection Hrun as <- <-. reflexivity.
Qed.

End Overwrite.

Section NegativeDistances.

Context {ext : Collaborators}.
Variable frame : Frame.

Local Open Scope float_scope.

Local Abbreviation dist := (GetDistanceBetweenADCAndObstacle frame).
Local Abbreviation scan := (HasBlockingObstacle_loop frame).

(** While the recorded distance is negative every blocking obstacle is
    recorded in its turn; if all their distances are negative this goes on
    to the end of the scan, which leaves the last of them recorded. *)
Lemma scan_negative_records_last (items : list Obstacle) :
  forall (locals : ScanLocals) (w : World) (o : Obstacle),
    (distance_to_closest_blocking_obstacle locals <? 0.0) = true ->
    (forall o', In o' items -> classified_blocking frame w o' = true ->
                (dist o' <? 0.0) = true) ->
    LastBlocking frame w items o ->
    context_id (snd (scan items locals w)) = Id o
    /\ cross_cycle_id (snd (scan items locals w)) = Id o.
Proof.
  induction items as [|x items IH];
    intros locals w o Hneg Hall (before & after & Hsplit & Hb & Hafter).
  - destruct before; discriminate Hsplit.
  - rewrite scan_step. destruct before as [|y before].
    + cbn in Hsplit. injection Hsplit as <- <-.
      rewrite Hb, Hneg. cbn [orb].
      rewrite scan_none_blocking by exact Hafter.
      split; reflexivity.
    + cbn in Hsplit. injection Hsplit as <- ->.
      assert (Hlast : LastBlocking frame w (before ++ o :: after) o).
      { exists before, after. repeat split; assumption. }
      assert (Hall' : forall o', In o' (before ++ o :: after) ->
                        classified_blocking frame w o' = true ->
                        (dist o' <? 0.0) = true).
      { intros o' Hin. apply Hall. right. exact Hin. }
      destruct (classified_blocking frame w x) eqn:Hbx.
      * rewrite Hneg. cbn [orb].
        apply IH; [|exact Hall'|exact Hlast].
        apply Hall; [left; reflexivity|exact Hbx].
      * apply IH; assumption.
Qed.

(** X10. The other side of the "nothing recorded yet" marker: on a single
    reference line where every obstacle classified as blocking has a
    negative distance, [HasBlockingObstacle] returns true and leaves in
    both places the id of the blocking obstacle scanned last, whatever the
    distances are. *)
Theorem HasBlockingObstacle_negative_distances
    (r : ReferenceLineInfo) (w : World) (o : Obstacle) :
  reference_line_info frame = [r] ->
  (forall o', In o' (Items (obstacles (path_decision r))) ->
              classified_blocking frame w o' = true ->
              (dist o' <? 0.0) = true) ->
  LastBlocking frame w (Items (obstacles (path_decision r))) o ->
  exists w' : World,
    HasBlockingObstacle frame w = Some (true, w')
    /\ context_id w' = Id o
    /\ cross_cycle_id w' = Id o.
Proof.
  intros Hone Hall Hlast.
  rewrite (HasBlockingObstacle_single frame r w Hone). cbv zeta.
  assert (Hex : existsb (classified_blocking frame w)
                        (Items (obstacles (path_decision r))) = true).
  { destruct Hlast as (before & after & Hsplit & Hb & _).
    apply existsb_exists. exists o. split; [|exact Hb].
    rewrite Hsplit. apply in_or_app. right. left. reflexivity. }
  rewrite scan_exists_flag, Hex. cbn [exists_a_blocking_obstacle orb].
  eexists. split; [reflexivity|].
  apply scan_negative_records_last; [reflexivity|exact Hall|exact Hlast].
Qed.

End NegativeDistances.

(** ** Thresholds *)

Section Thresholds.

Context {ext : Collaborators}.

Local Open Scope float_scope.

(** Every comparison with a NaN is false. *)
Lemma nan_ltb_l (x y : double) : (x <=? x) = false -> (x <? y) = false.
Proof.
  intros Hnan. destruct (x <? y) eqn:Hlt; [|reflexivity].
  apply DoubleOrder.ltb_leb in Hlt.
  assert (Hx : (x <=? x) = true).
  { apply DoubleOrder.leb_cmp in Hlt. destruct Hlt as (c & Hc & _).
    apply DoubleOrder.leb_cmp. unfold double_compare in *.
    apply DoubleOrder.SFcompare_antisym in Hc.
    exists Eq. split; [|discriminate].
    exact (DoubleOrder.SFcompare_number_r _ _ _ Hc). }
  congruence.
Qed.

Lemma nan_ltb_r (x y : double) : (y <=? y) = false -> (x <? y) = false.
Proof.
  intros Hnan. destruct (x <? y) eqn:Hlt; [|reflexivity].
  apply DoubleOrder.ltb_leb, DoubleOrder.leb_refl_r in Hlt. congruence.
Qed.

Lemma leb_ltb_trans (x y z : double) :
  (x <=? y) = true -> (y <? z) = true -> (x <? z) = true.
Proof.
  rewrite DoubleOrder.leb_cmp, !DoubleOrder.ltb_cmp.
  intros (c & Hxy & Hc) Hyz. unfold double_compare in *.
  rewrite (DoubleOrder.SFcompare_trans _ _ _ _ _ Hxy Hyz Hc);
    [|discriminate].
  destruct c; reflexivity.
Qed.

Lemma IsFarFromDestination_single (frame : Frame) (r : ReferenceLineInfo) :
  reference_line_info frame = [r] ->
  IsFarFromDestination frame
  = Some (negb (SDistanceToDestination r <? 15.0)).
Proof.
  intros Hone. unfold IsFarFromDestination. rewrite Hone. cbn.
  unfold kClearDistance. destruct (_ <? _); reflexivity.
Qed.

(** X11. [IsFarFromDestination] is monotone in the remaining distance and
    its boundary is inclusive: on single-reference-line snapshots, if it
    returns true at one distance it returns true at every distance that is
    at least as large, and it returns true at exactly 15.0. *)
Theorem IsFarFromDestination_monotone
    (frame frame' : Frame) (r r' : ReferenceLineInfo) :
  reference_line_info frame = [r] ->
  reference_line_info frame' = [r'] ->
  (SDistanceToDestination r = 15.0 -> IsFarFromDestination frame = Some true)
  /\ ((SDistanceToDestination r <=? SDistanceToDestination r') = true ->
      IsFarFromDestination frame = Some true ->
      IsFarFromDestination frame' = Some true).
Proof.
  intros Hone Hone'.
  rewrite (IsFarFromDestination_single frame r Hone),
          (IsFarFromDestination_single frame' r' Hone').
  split.
  - intros ->. reflexivity.
  - intros Hle [= Hfar]. f_equal.
    apply negb_true_iff in Hfar. apply negb_true_iff.
    destruct (SDistanceToDestination r' <? 15.0) eqn:Hlt; [|reflexivity].
    rewrite (leb_ltb_trans _ _ _ Hle Hlt) in Hfar. discriminate.
Qed.

(** An overlap whose distance is NaN is never too close. *)
Lemma nan_distance_not_too_close (ego_boundary : SLBoundary)
    (overlap : OverlapType * hdmap.PathOverlap) :
  distance_is_number ego_boundary overlap = false ->
  too_close ego_boundary overlap = false.
Proof.
  unfold distance_is_number, too_close. intros Hnan.
  rewrite (nan_ltb_l _ _ Hnan). apply andb_false_r.
Qed.

(** The overlap scan sees the overlaps whose distance is a number and no
    others. *)
Lemma too_close_only_among_numbers (ego_boundary : SLBoundary)
    (overlaps : list (OverlapType * hdmap.PathOverlap)) :
  existsb (too_close ego_boundary) overlaps
  = existsb (too_close ego_boundary)
      (filter (distance_is_number ego_boundary) overlaps).
Proof.
  induction overlaps as [|overlap rest IH]; [reflexivity|].
  cbn [filter existsb].
  destruct (distance_is_number ego_boundary overlap) eqn:Hnum.
  - cbn [existsb]. rewrite IH. reflexivity.
  - rewrite (nan_distance_not_too_close _ _ Hnum), IH. reflexivity.
Qed.

(** X12. A NaN never trips a threshold.  On a single reference line: a NaN
    distance to destination counts as far from the destination; an overlap
    whose distance is NaN (a NaN start or a NaN ego front edge) is passed
    over by [IsFarFromIntersection] wherever it stands among the overlaps,
    so the result is the one for the overlaps whose distance is a number,
    it is unchanged when such an overlap is taken out, and it is true when
    all distances are NaN; and in the continuation case a NaN gap does not
    abort the maneuver. *)
Theorem NaN_passes_every_threshold
    (frame : Frame) (r : ReferenceLineInfo) :
  reference_line_info frame = [r] ->
  ((SDistanceToDestination r <=? SDistanceToDestination r) = false ->
   IsFarFromDestination frame = Some true)
  /\ IsFarFromIntersection frame
     = Some (negb (existsb (too_close (AdcSlBoundary r))
                     (filter (distance_is_number (AdcSlBoundary r))
                             (FirstEncounteredOverlaps r))))
  /\ (forall seen overlap unseen,
        FirstEncounteredOverlaps r = seen ++ overlap :: unseen ->
        (overlap_distance (AdcSlBoundary r) overlap
         <=? overlap_distance (AdcSlBoundary r) overlap) = false ->
        IsFarFromIntersection frame
        = Some (IsFarFromIntersection_loop (AdcSlBoundary r)
                  (seen ++ unseen))
        /\ IsFarFromIntersection frame
           = Some (negb (existsb (too_close (AdcSlBoundary r))
                                 (seen ++ unseen))))
  /\ ((forall overlap, In overlap (FirstEncounteredOverlaps r) ->
         (overlap_distance (AdcSlBoundary r) overlap
          <=? overlap_distance (AdcSlBoundary r) overlap) = false) ->
      IsFarFromIntersection frame = Some true)
  /\ (forall current_scenario o w,
        scenario_type current_scenario = ScenarioConfig.SIDE_PASS ->
        Find frame (cross_cycle_id w) = Some o ->
        IsStatic o = true ->
        (gap r o <=? gap r o) = false ->
        option_map fst (IsTransferable current_scenario frame w)
        = Some (negb (ScenarioStatus_eqb (GetStatus current_scenario)
                                         STATUS_DONE))).
Proof.
  intros Hone.
  assert (Hrun : IsFarFromIntersection frame
                 = Some (negb (existsb (too_close (AdcSlBoundary r))
                                       (FirstEncounteredOverlaps r)))).
  { unfold IsFarFromIntersection. rewrite Hone. cbn.
    rewrite IsFarFromIntersection_loop_existsb. reflexivity. }
  split; [|split; [|split; [|split]]].
  - intros Hnan. rewrite (IsFarFromDestination_single frame r Hone).
    rewrite (nan_ltb_l _ _ Hnan). reflexivity.
  - rewrite Hrun, too_close_only_among_numbers. reflexivity.
  - intros seen overlap unseen Hsplit Hnan.
    assert (E : existsb (too_close (AdcSlBoundary r))
                        (FirstEncounteredOverlaps r)
                = existsb (too_close (AdcSlBoundary r)) (seen ++ unseen)).
    { rewrite Hsplit, !existsb_app. cbn [existsb].
      rewrite (nan_distance_not_too_close _ _ Hnan). reflexivity. }
    rewrite Hrun, E, IsFarFromIntersection_loop_existsb.
    split; reflexivity.
  - intros Hnan. rewrite Hrun. f_equal. apply negb_true_iff.
    destruct (existsb _ _) eqn:Hex; [|reflexivity].
    apply existsb_exists in Hex. destruct Hex as (overlap & Hin & Hclose).
    rewrite (nan_distance_not_too_close _ _ (Hnan overlap Hin)) in Hclose.
    discriminate.
  - intros cs o w Hty Hfind Hstatic Hnan.
    rewrite (IsTransferable_continuation cs frame r o w Hty Hone Hfind
               Hstatic).
    rewrite (nan_ltb_r _ _ Hnan). reflexivity.
Qed.

End Thresholds.

(** ** The overlap scan as a whole *)

Section OverlapSets.

Context {ext : Collaborators}.

Local Open Scope float_scope.

Lemma existsb_Permutation {A : Type} (f : A -> bool) (l l' : list A) :
  Permutation l l' -> existsb f l = existsb f l'.
Proof.
  induction 1 as [|x l l' _ IH|x y l|l l' l'' _ IH1 _ IH2]; cbn.
  - reflexivity.
  - rewrite IH. reflexivity.
  - destruct (f x), (f y); reflexivity.
  - congruence.
Qed.

(** X13. The early return of [IsFarFromIntersection] is only a short cut:
    two single-reference-line snapshots with the same ego boundary whose
    overlaps are the same up to their order get the same answer. *)
Theorem IsFarFromIntersection_order_irrelevant
    (frame frame' : Frame) (r r' : ReferenceLineInfo) :
  reference_line_info frame = [r] ->
  reference_line_info frame' = [r'] ->
  AdcSlBoundary r = AdcSlBoundary r' ->
  Permutation (FirstEncounteredOverlaps r) (FirstEncounteredOverlaps r') ->
  IsFarFromIntersection frame = IsFarFromIntersection frame'.
Proof.
  intros Hone Hone' Hego Hperm.
  unfold IsFarFromIntersection. rewrite Hone, Hone'. cbn.
  rewrite !IsFarFromIntersection_loop_existsb, Hego.
  rewrite (existsb_Permutation _ _ _ Hperm). reflexivity.
Qed.

(** X14. More overlaps never help: the scan of two overlap lists put
    together succeeds exactly when the scan of each succeeds. *)
Theorem IsFarFromIntersection_loop_app
    (ego_boundary : SLBoundary)
    (overlaps more : list (OverlapType * hdmap.PathOverlap)) :
  IsFarFromIntersection_loop ego_boundary (overlaps ++ more)
  = IsFarFromIntersection_loop ego_boundary overlaps
    && IsFarFromIntersection_loop ego_boundary more.
Proof.
  rewrite !IsFarFromIntersection_loop_existsb, existsb_app.
  apply negb_orb.
Qed.

(** X15. Junctions alone never keep the vehicle from side passing: when all
    first-encountered overlaps of the single reference line are of type
    [PNC_JUNCTION] (or of a type the code does not name),
    [IsFarFromIntersection] returns true however close they are. *)
Theorem IsFarFromIntersection_junctions_only
    (frame : Frame) (r : ReferenceLineInfo) :
  reference_line_info frame = [r] ->
  (forall overlap, In overlap (FirstEncounteredOverlaps r) ->
                   fst overlap = PNC_JUNCTION \/ fst overlap = OTHER_OVERLAP) ->
  IsFarFromIntersection frame = Some true.
Proof.
  intros Hone Hall. unfold IsFarFromIntersection. rewrite Hone. cbn.
  induction (FirstEncounteredOverlaps r) as [|[t o] rest IH];
    [reflexivity|].
  cbn [IsFarFromIntersection_loop fst snd].
  assert (Ht : t = PNC_JUNCTION \/ t = OTHER_OVERLAP).
  { exact (Hall (t, o) (or_introl eq_refl)). }
  assert (IH' : Some (IsFarFromIntersection_loop (AdcSlBoundary r) rest)
                = Some true).
  { apply IH. intros overlap Hin. apply Hall. right. exact Hin. }
  destruct Ht as [-> | ->]; exact IH'.
Qed.

End OverlapSets.

(** ** The transition rule *)

Section Transition.

Context {ext : Collaborators}.

Local Open Scope float_scope.

(** X16. [IsTransferable] never preempts another special scenario: when the
    current scenario is neither this maneuver nor the default driving
    behaviour it returns false and leaves the world untouched, on every
    snapshot, even one without reference lines. *)
Theorem IsTransferable_other_scenario
    (current_scenario : Scenario) (frame : Frame) (w : World) :
  scenario_type current_scenario <> ScenarioConfig.SIDE_PASS ->
  scenario_type current_scenario <> ScenarioConfig.LANE_FOLLOW ->
  IsTransferable current_scenario frame w = Some (false, w).
Proof.
  intros Hnot_sp Hnot_lf. unfold IsTransferable.
  destruct (1 <? List.length (reference_line_info frame))%nat;
    [reflexivity|].
  unfold bind, gets.
  destruct (scenario_type current_scenario); try reflexivity.
  - contradiction Hnot_lf. reflexivity.
  - contradiction Hnot_sp. reflexivity.
Qed.

(** X17. A finished maneuver is never continued: when this maneuver is the
    current scenario and its status is DONE, [IsTransferable] does not
    return true, whatever the snapshot holds; and it never rewrites the
    tracked id on that path. *)
Theorem IsTransferable_done_never_continues
    (current_scenario : Scenario) (frame : Frame) (w w' : World) (b : bool) :
  scenario_type current_scenario = ScenarioConfig.SIDE_PASS ->
  GetStatus current_scenario = STATUS_DONE ->
  IsTransferable current_scenario frame w = Some (b, w') ->
  b = false
  /\ context_id w' = context_id w
  /\ cross_cycle_id w' = cross_cycle_id w.
Proof.
  intros Hty Hdone. unfold IsTransferable.
  destruct (1 <? List.length (reference_line_info frame))%nat.
  { intros [= <- <-]. repeat split. }
  unfold bind at 1. unfold gets at 1. rewrite Hty.
  destruct (Find frame (side_pass_front_blocking_obstacle_id w)) as [o|].
  - destruct (negb (IsStatic o)).
    { intros [= <- <-]. repeat split. }
    unfold bind, pure_call.
    destruct (front (reference_line_info frame)) as [r|]; try discriminate.
    destruct (kSidePassMaxDistance <? _).
    + intros [= <- <-]. repeat split.
    + unfold modify, ret. rewrite Hdone. intros [= <- <-]. repeat split.
  - intros [= <- <-]. repeat split.
Qed.

(** X18. Whenever [IsTransferable] returns true, [msg_] afterwards is
    "side pass obstacle: " followed by the id the cross-cycle state held
    when the call began.  On the entry path that is the id from before
    [HasBlockingObstacle] ran, not necessarily the obstacle it has just
    recorded. *)
Theorem IsTransferable_true_sets_msg
    (current_scenario : Scenario) (frame : Frame) (w w' : World) :
  IsTransferable current_scenario frame w = Some (true, w') ->
  msg_ w' = ("side pass obstacle: " ++ cross_cycle_id w)%string.
Proof.
  unfold IsTransferable, cross_cycle_id.
  destruct (1 <? List.length (reference_line_info frame))%nat;
    [discriminate|].
  unfold bind at 1. unfold gets at 1.
  destruct (scenario_type current_scenario).
  - unfold bind at 1. unfold IsSidePassScenario, and_then, bind, pure_call.
    destruct (IsFarFromDestination frame) as [[|]|]; try discriminate.
    destruct (IsFarFromIntersection frame) as [[|]|]; try discriminate.
    destruct (HasBlockingObstacle frame w) as [[[|] w0]|]; try discriminate.
    unfold modify, ret. intros [= <-]. reflexivity.
  - destruct (Find frame (side_pass_front_blocking_obstacle_id w)) as [o|];
      [|discriminate].
    destruct (negb (IsStatic o)); [discriminate|].
    unfold bind, pure_call.
    destruct (front (reference_line_info frame)) as [r|]; try discriminate.
    destruct (kSidePassMaxDistance <? _); [discriminate|].
    unfold modify, ret. intros [= _ <-]. reflexivity.
  - discriminate.
Qed.

(** X19. What an entry decision guarantees: when [IsTransferable] returns
    true from the default driving behaviour, the snapshot has exactly one
    reference line, its distance to destination is not below 15.0, none of
    its overlaps is too close, and the tracked id, in both places, is the
    id of an obstacle of its registry that is classified as blocking. *)
Theorem IsTransferable_entry_sound
    (current_scenario : Scenario) (frame : Frame) (w w' : World) :
  scenario_type current_scenario = ScenarioConfig.LANE_FOLLOW ->
  IsTransferable current_scenario frame w = Some (true, w') ->
  exists r : ReferenceLineInfo,
    reference_line_info frame = [r]
    /\ (SDistanceToDestination r <? 15.0) = false
    /\ (forall overlap, In overlap (FirstEncounteredOverlaps r) ->
                        too_close (AdcSlBoundary r) overlap = false)
    /\ exists o : Obstacle,
         In o (Items (obstacles (path_decision r)))
         /\ classified_blocking frame w o = true
         /\ context_id w' = Id o
         /\ cross_cycle_id w' = Id o.
Proof.
  intros Hty. unfold IsTransferable.
  destruct (1 <? List.length (reference_line_info frame))%nat;
    [discriminate|].
  unfold bind at 1. unfold gets at 1. rewrite Hty.
  unfold bind at 1. unfold IsSidePassScenario, and_then, bind, pure_call.
  destruct (IsFarFromDestination frame) as [[|]|] eqn:Hdest;
    try discriminate.
  destruct (IsFarFromIntersection frame) as [[|]|] eqn:Hint;
    try discriminate.
  destruct (HasBlockingObstacle frame w) as [[[|] w0]|] eqn:Hhas;
    try discriminate.
  unfold modify, ret. intros [= <-].
  pose proof (HasBlockingObstacle_cases frame w) as Hcases.
  destruct (reference_line_info frame) as [|r [|r' rest]] eqn:Hlines;
    rewrite Hcases in Hhas; try discriminate.
  exists r. split; [reflexivity|].
  rewrite (IsFarFromDestination_single frame r Hlines) in Hdest.
  injection Hdest as Hdest. apply negb_true_iff in Hdest.
  split; [exact Hdest|]. split.
  - unfold IsFarFromIntersection in Hint. rewrite Hlines in Hint.
    cbn in Hint. rewrite IsFarFromIntersection_loop_existsb in Hint.
    injection Hint as Hint. apply negb_true_iff in Hint.
    intros overlap Hin.
    destruct (too_close (AdcSlBoundary r) overlap) eqn:Hc; [|reflexivity].
    assert (Hex : existsb (too_close (AdcSlBoundary r))
                          (FirstEncounteredOverlaps r) = true).
    { apply existsb_exists. exists overlap. split; assumption. }
    congruence.
  - cbv zeta in Hhas. rewrite scan_exists_flag in Hhas.
    cbn [exists_a_blocking_obstacle orb] in Hhas.
    destruct (existsb _ _) eqn:Hex; [|discriminate].
    injection Hhas as <-.
    destruct (scan_records_some frame _
                {| distance_to_closest_blocking_obstacle := -100.0;
                   exists_a_blocking_obstacle := false |} w eq_refl Hex)
      as (o & Hin & Hb & H1 & H2).
    exists o. repeat split; assumption.
Qed.

End Transition.

(** ** Snapshots without a reference line, and the next cycle *)

Section Lifecycle.

Context {ext : Collaborators}.

Local Open Scope float_scope.

(** X20. The topology guard only rejects more than one reference line.  On a
    snapshot with none, [IsFarFromDestination], [IsFarFromIntersection] and
    [HasBlockingObstacle] take the front of an empty list and have no
    defined result, and so has [IsTransferable] on the entry path; on every
    snapshot with at least one reference line all of them, and
    [IsTransferable] for every current scenario, return a result. *)
Theorem defined_iff_some_reference_line (frame : Frame) :
  (IsFarFromDestination frame = None <-> reference_line_info frame = [])
  /\ (IsFarFromIntersection frame = None <-> reference_line_info frame = [])
  /\ (forall w, HasBlockingObstacle frame w = None
                <-> reference_line_info frame = [])
  /\ (forall current_scenario w,
        scenario_type current_scenario = ScenarioConfig.LANE_FOLLOW ->
        reference_line_info frame = [] ->
        IsTransferable current_scenario frame w = None)
  /\ (forall current_scenario w,
        reference_line_info frame <> [] ->
        exists b w', IsTransferable current_scenario frame w = Some (b, w')).
Proof.
  assert (Hdest : IsFarFromDestination frame = None
                  <-> reference_line_info frame = []).
  { unfold IsFarFromDestination.
    destruct (reference_line_info frame) as [|r [|r' rest]]; cbn.
    - split; reflexivity.
    - destruct (_ <? _); split; discriminate.
    - split; discriminate. }
  assert (Hint : IsFarFromIntersection frame = None
                 <-> reference_line_info frame = []).
  { unfold IsFarFromIntersection.
    destruct (reference_line_info frame) as [|r [|r' rest]]; cbn;
      split; try discriminate; reflexivity. }
  assert (Hhas : forall w, HasBlockingObstacle frame w = None
                           <-> reference_line_info frame = []).
  { intros w. pose proof (HasBlockingObstacle_cases frame w) as Hcases.
    destruct (reference_line_info frame) as [|r [|r' rest]];
      rewrite Hcases.
    - split; reflexivity.
    - cbv zeta. destruct (exists_a_blocking_obstacle _);
        split; discriminate.
    - split; discriminate. }
  split; [exact Hdest|]. split; [exact Hint|]. split; [exact Hhas|]. split.
  - intros cs w Hty Hnone. unfold IsTransferable. rewrite Hnone.
    cbn [List.length Nat.ltb Nat.leb].
    unfold bind at 1. unfold gets at 1. rewrite Hty.
    unfold bind, IsSidePassScenario, and_then, bind, pure_call.
    rewrite (proj2 Hdest Hnone). reflexivity.
  - intros cs w Hsome. unfold IsTransferable.
    destruct (1 <? List.length (reference_line_info frame))%nat;
      [eexists; eexists; reflexivity|].
    unfold bind at 1. unfold gets at 1.
    destruct (scenario_type cs).
    + unfold bind at 1. unfold IsSidePassScenario, and_then, bind, pure_call.
      destruct (IsFarFromDestination frame) as [[|]|] eqn:E1.
      * destruct (IsFarFromIntersection frame) as [[|]|] eqn:E2.
        -- destruct (HasBlockingObstacle frame w) as [[[|] w0]|] eqn:E3.
           ++ eexists; eexists; reflexivity.
           ++ eexists; eexists; reflexivity.
           ++ apply Hhas in E3. contradiction.
        -- eexists; eexists; reflexivity.
        -- exfalso. apply Hsome, Hint. reflexivity.
      * eexists; eexists; reflexivity.
      * exfalso. apply Hsome, Hdest. reflexivity.
    + destruct (Find frame (side_pass_front_blocking_obstacle_id w)) as [o|];
        [|eexists; eexists; reflexivity].
      destruct (negb (IsStatic o)); [eexists; eexists; reflexivity|].
      unfold bind, pure_call.
      destruct (reference_line_info frame) as [|r rest];
        [contradiction Hsome; reflexivity|].
      cbn [front].
      destruct (kSidePassMaxDistance <? _); eexists; eexists; reflexivity.
    + eexists; eexists; reflexivity.
Qed.

(** X21. The id survives the cycle boundary: after [HasBlockingObstacle] on
    a single reference line, a scenario object constructed afterwards
    tracks the id that call recorded (or none if it cleared it), holds the
    configuration it was given, and its construction writes neither the
    cross-cycle state nor the factory nor the log. *)
Theorem id_round_trip_through_cross_cycle_state
    (frame : Frame) (r : ReferenceLineInfo) (config : ScenarioConfigMsg)
    (w w1 : World) (b : bool) :
  reference_line_info frame = [r] ->
  HasBlockingObstacle frame w = Some (b, w1) ->
  exists w2 : World,
    SidePassScenario config w1 = Some (tt, w2)
    /\ context_id w2 = context_id w1
    /\ cross_cycle_id w2 = cross_cycle_id w1
    /\ scenario_config_ (side_pass_context_ w2) = side_pass_config config
    /\ s_stage_factory_ w2 = s_stage_factory_ w1
    /\ error_log w2 = error_log w1.
Proof.
  intros Hone Hrun.
  assert (Hsync : InSync w1).
  { revert Hrun. rewrite (HasBlockingObstacle_single frame r w Hone).
    cbv zeta. destruct (exists_a_blocking_obstacle _) eqn:Hflag;
      intros [= <- <-]; [|reflexivity].
    rewrite scan_exists_flag in Hflag.
    cbn [exists_a_blocking_obstacle orb] in Hflag.
    destruct (scan_records_some frame _
                {| distance_to_closest_blocking_obstacle := -100.0;
                   exists_a_blocking_obstacle := false |} w eq_refl Hflag)
      as (o & _ & _ & H1 & H2).
    unfold InSync. congruence. }
  eexists. split; [reflexivity|]. cbn. repeat split.
  symmetry. exact Hsync.
Qed.

End Lifecycle.

(** ** Further concrete runs *)

Module MoreRuns.

Import Fixture.
Import Cases.

#[local] Existing Instance collaborators.

Local Open Scope string_scope.
Local Open Scope float_scope.

Lemma CreateStage_registered_stage_witness :
  RegisterStages (world "") = Some (tt, registered (world ""))
  /\ Factory_lookup (s_stage_factory_ (registered (world "")))
       (ScenarioConfig.stage_type default_stage) = Some StageSidePass
  /\ CreateStage default_stage (world "")
     = Some (Some {| config_ := default_stage;
                     context_ := Some side_pass_context_ptr |},
             registered (world "")).
Proof.
  split; [reflexivity|]. split; [reflexivity|].
  exact (proj1 (CreateStage_registered_stage default_stage (world "")
                  (registered (world "")) StageSidePass eq_refl eq_refl)).
Defined.

Lemma CreateStage_fresh_factory_witness :
  s_stage_factory_ (world "") = []
  /\ option_map fst (CreateStage unknown_stage (world "")) = Some None
  /\ option_map fst (CreateStage default_stage (world ""))
     = Some (Some {| config_ := default_stage;
                     context_ := Some side_pass_context_ptr |}).
Proof.
  split; [reflexivity|]. split.
  - exact (CreateStage_fresh_factory unknown_stage (world "") eq_refl).
  - exact (CreateStage_fresh_factory default_stage (world "") eq_refl).
Defined.

Lemma CreateStage_again_witness :
  CreateStage unknown_stage (world "")
  = Some (None,
          AERROR "Failed to create stage for config: stage_type: UNKNOWN"
            (registered (world "")))
  /\ exists w2 : World,
       CreateStage unknown_stage
         (AERROR "Failed to create stage for config: stage_type: UNKNOWN"
            (registered (world "")))
       = Some (None, w2)
       /\ s_stage_factory_ w2
          = [(ScenarioConfig.SIDE_PASS_DEFAULT_STAGE, StageSidePass)].
Proof.
  split; [reflexivity|].
  exact (CreateStage_again unknown_stage (world "")
           (AERROR "Failed to create stage for config: stage_type: UNKNOWN"
              (registered (world "")))
           None eq_refl).
Defined.

Lemma HasBlockingObstacle_footprint_witness :
  HasBlockingObstacle far_then_near (world "stale")
  = Some (true, world "near")
  /\ SameButIds (world "stale") (world "near").
Proof.
  split; [reflexivity|].
  exact (proj1 (HasBlockingObstacle_footprint far_then_near
                  (world "stale") (world "near") true eq_refl)).
Defined.

Lemma IsTransferable_footprint_witness :
  IsTransferable in_lane_follow entry (world "") = Some (true, entered)
  /\ SameButIdsAndMsg (world "") entered.
Proof.
  split; [reflexivity|].
  exact (proj1 (IsTransferable_footprint in_lane_follow entry
                  (world "") entered true eq_refl)).
Defined.

Lemma tracked_id_stays_in_sync_witness :
  InSync (world "old")
  /\ IsTransferable in_lane_follow entry (world "old")
     = Some (true, set_msg_ "side pass obstacle: old" (world "a"))
  /\ InSync (set_msg_ "side pass obstacle: old" (world "a")).
Proof.
  split; [reflexivity|]. split; [reflexivity|].
  exact (proj1 (proj2 (tracked_id_stays_in_sync (world "old") eq_refl))
           in_lane_follow entry true
           (set_msg_ "side pass obstacle: old" (world "a")) eq_refl).
Defined.

Lemma HasBlockingObstacle_overwrites_witness :
  reference_line_info far_then_near
  = [line 20.0 [] [parked "far" 13.0; parked "near" 8.0]]
  /\ SameButIds (world "x") (world "y")
  /\ HasBlockingObstacle far_then_near (world "x")
     = HasBlockingObstacle far_then_near (world "y").
Proof.
  split; [reflexivity|]. split; [reflexivity|].
  exact (HasBlockingObstacle_overwrites far_then_near
           (line 20.0 [] [parked "far" 13.0; parked "near" 8.0])
           (world "x") (world "y") eq_refl eq_refl).
Defined.

Lemma HasBlockingObstacle_idempotent_witness :
  HasBlockingObstacle twins (world "") = Some (true, world "first")
  /\ HasBlockingObstacle twins (world "first") = Some (true, world "first").
Proof.
  split; [reflexivity|].
  exact (HasBlockingObstacle_idempotent twins (world "") (world "first")
           true eq_refl).
Defined.

Lemma HasBlockingObstacle_negative_distances_witness :
  reference_line_info both_negative
  = [line 20.0 [] [parked "beside" 4.0; parked "behind" 1.0]]
  /\ (GetDistanceBetweenADCAndObstacle both_negative (parked "beside" 4.0)
      <? 0.0) = true
  /\ (GetDistanceBetweenADCAndObstacle both_negative (parked "behind" 1.0)
      <? 0.0) = true
  /\ exists w' : World,
       HasBlockingObstacle both_negative (world "") = Some (true, w')
       /\ context_id w' = "behind"
       /\ cross_cycle_id w' = "behind".
Proof.
  split; [reflexivity|]. split; [reflexivity|]. split; [reflexivity|].
  apply (HasBlockingObstacle_negative_distances both_negative
           (line 20.0 [] [parked "beside" 4.0; parked "behind" 1.0])
           (world "") (parked "behind" 1.0)).
  - reflexivity.
  - intros o' [<-|[<-|[]]] _; reflexivity.
  - exists [parked "beside" 4.0], []. split; [reflexivity|].
    split; [reflexivity|]. intros o' [].
Defined.

Lemma IsFarFromDestination_monotone_witness :
  reference_line_info at_clear_distance = [line 15.0 [] []]
  /\ reference_line_info far_destination = [line 30.0 [] []]
  /\ IsFarFromDestination at_clear_distance = Some true
  /\ (SDistanceToDestination (line 15.0 [] [])
      <=? SDistanceToDestination (line 30.0 [] [])) = true
  /\ IsFarFromDestination far_destination = Some true.
Proof.
  split; [reflexivity|]. split; [reflexivity|].
  pose (H := IsFarFromDestination_monotone at_clear_distance far_destination
               (line 15.0 [] []) (line 30.0 [] []) eq_refl eq_refl).
  split; [exact (proj1 H eq_refl)|]. split; [reflexivity|].
  exact (proj2 H eq_refl (proj1 H eq_refl)).
Defined.

Lemma NaN_passes_every_threshold_witness :
  reference_line_info nan_among_overlaps
  = [line 20.0 [overlap_at CROSSWALK 30.0; overlap_at CROSSWALK nan] []]
  /\ (overlap_distance ego (overlap_at CROSSWALK nan)
      <=? overlap_distance ego (overlap_at CROSSWALK nan)) = false
  /\ IsFarFromIntersection nan_among_overlaps
     = Some (IsFarFromIntersection_loop ego [overlap_at CROSSWALK 30.0])
  /\ IsFarFromIntersection nan_among_overlaps = Some true
  /\ reference_line_info nan_everywhere
     = [line nan [overlap_at CROSSWALK nan] [parked "a" nan]]
  /\ (nan <=? nan) = false
  /\ IsFarFromDestination nan_everywhere = Some true
  /\ IsFarFromIntersection nan_everywhere = Some true
  /\ option_map fst (IsTransferable (in_side_pass STATUS_PROCESSING)
                                    nan_everywhere (world "a"))
     = Some true.
Proof.
  pose (H1 := NaN_passes_every_threshold nan_among_overlaps
                (line 20.0
                   [overlap_at CROSSWALK 30.0; overlap_at CROSSWALK nan] [])
                eq_refl).
  pose (H2 := NaN_passes_every_threshold nan_everywhere
                (line nan [overlap_at CROSSWALK nan] [parked "a" nan])
                eq_refl).
  split; [reflexivity|]. split; [reflexivity|].
  split.
  { exact (proj1 (proj1 (proj2 (proj2 H1)) [overlap_at CROSSWALK 30.0]
                    (overlap_at CROSSWALK nan) [] eq_refl eq_refl)). }
  split; [exact (proj1 (proj2 H1))|].
  split; [reflexivity|]. split; [reflexivity|].
  split; [exact (proj1 H2 eq_refl)|]. split.
  - apply (proj1 (proj2 (proj2 (proj2 H2)))).
    intros overlap [<-|[]]. reflexivity.
  - exact (proj2 (proj2 (proj2 (proj2 H2)))
             (in_side_pass STATUS_PROCESSING)
             (parked "a" nan) (world "a") eq_refl eq_refl eq_refl eq_refl).
Defined.

Lemma IsFarFromIntersection_order_irrelevant_witness :
  reference_line_info far_overlaps
  = [line 20.0
       [overlap_at PNC_JUNCTION 6.0; overlap_at SIGNAL 60.0;
        overlap_at CROSSWALK 20.0] []]
  /\ reference_line_info far_overlaps_reversed
     = [line 20.0
          [overlap_at CROSSWALK 20.0; overlap_at SIGNAL 60.0;
           overlap_at PNC_JUNCTION 6.0] []]
  /\ IsFarFromIntersection far_overlaps
     = IsFarFromIntersection far_overlaps_reversed.
Proof.
  split; [reflexivity|]. split; [reflexivity|].
  apply (IsFarFromIntersection_order_irrelevant far_overlaps
           far_overlaps_reversed
           (line 20.0
              [overlap_at PNC_JUNCTION 6.0; overlap_at SIGNAL 60.0;
               overlap_at CROSSWALK 20.0] [])
           (line 20.0
              [overlap_at CROSSWALK 20.0; overlap_at SIGNAL 60.0;
               overlap_at PNC_JUNCTION 6.0] []));
    try reflexivity.
  exact (Permutation_rev
           [overlap_at PNC_JUNCTION 6.0; overlap_at SIGNAL 60.0;
            overlap_at CROSSWALK 20.0]).
Defined.

Lemma IsFarFromIntersection_junctions_only_witness :
  reference_line_info junction_close
  = [line 20.0 [overlap_at PNC_JUNCTION 6.0] []]
  /\ (overlap_distance ego (overlap_at PNC_JUNCTION 6.0) <? 15.0) = true
  /\ IsFarFromIntersection junction_close = Some true.
Proof.
  split; [reflexivity|]. split; [reflexivity|].
  apply (IsFarFromIntersection_junctions_only junction_close
           (line 20.0 [overlap_at PNC_JUNCTION 6.0] []) eq_refl).
  intros overlap [<-|[]]. left. reflexivity.
Defined.

Lemma IsTransferable_other_scenario_witness :
  IsTransferable in_other_scenario no_lines (world "old")
  = Some (false, world "old")
  /\ IsTransferable in_other_scenario entry (world "old")
     = Some (false, world "old").
Proof.
  split.
  - apply (IsTransferable_other_scenario in_other_scenario no_lines
             (world "old")); discriminate.
  - apply (IsTransferable_other_scenario in_other_scenario entry
             (world "old")); discriminate.
Defined.

Lemma IsTransferable_done_never_continues_witness :
  IsTransferable (in_side_pass STATUS_DONE) entry (world "a")
  = Some (false, entered_again)
  /\ context_id entered_again = context_id (world "a")
  /\ cross_cycle_id entered_again = cross_cycle_id (world "a").
Proof.
  split; [reflexivity|].
  exact (proj2 (IsTransferable_done_never_continues
                  (in_side_pass STATUS_DONE) entry (world "a")
                  entered_again false eq_refl eq_refl eq_refl)).
Defined.

Lemma IsTransferable_true_sets_msg_witness :
  IsTransferable in_lane_follow entry (world "") = Some (true, entered)
  /\ cross_cycle_id entered = "a"
  /\ msg_ entered = "side pass obstacle: ".
Proof.
  split; [reflexivity|]. split; [reflexivity|].
  exact (IsTransferable_true_sets_msg in_lane_follow entry (world "")
           entered eq_refl).
Defined.

Lemma IsTransferable_entry_sound_witness :
  scenario_type in_lane_follow = ScenarioConfig.LANE_FOLLOW
  /\ IsTransferable in_lane_follow entry (world "") = Some (true, entered)
  /\ exists r : ReferenceLineInfo,
       reference_line_info entry = [r]
       /\ (SDistanceToDestination r <? 15.0) = false
       /\ (forall overlap, In overlap (FirstEncounteredOverlaps r) ->
                           too_close (AdcSlBoundary r) overlap = false)
       /\ exists o : Obstacle,
            In o (Items (obstacles (path_decision r)))
            /\ classified_blocking entry (world "") o = true
            /\ context_id entered = Id o
            /\ cross_cycle_id entered = Id o.
Proof.
  split; [reflexivity|]. split; [reflexivity|].
  exact (IsTransferable_entry_sound in_lane_follow entry (world "") entered
           eq_refl eq_refl).
Defined.

Lemma id_round_trip_through_cross_cycle_state_witness :
  reference_line_info far_then_near
  = [line 20.0 [] [parked "far" 13.0; parked "near" 8.0]]
  /\ HasBlockingObstacle far_then_near (world "") = Some (true, world "near")
  /\ exists w2 : World,
       SidePassScenario config_msg (world "near") = Some (tt, w2)
       /\ context_id w2 = "near"
       /\ cross_cycle_id w2 = "near"
       /\ scenario_config_ (side_pass_context_ w2) = default_config
       /\ s_stage_factory_ w2 = []
       /\ error_log w2 = [].
Proof.
  split; [reflexivity|]. split; [reflexivity|].
  exact (id_round_trip_through_cross_cycle_state far_then_near
           (line 20.0 [] [parked "far" 13.0; parked "near" 8.0])
           config_msg (world "") (world "near") true eq_refl eq_refl).
Defined.

End MoreRuns.
